(** * domain-lookup: RDAP lookup with WHOIS fallback

    A shallow embedding of the lookup core of domain-lookup (rdap.go,
    whois.go, checker.go and queryAll of main.go) and the properties its
    specification states about it.

    Conventions of the embedding.
    - A Go [string] is a Rocq [string] (a sequence of bytes).  The functions of
      Go's [strings], [unicode/utf8] and [unicode] packages that the program
      calls are modelled as Go has them: runes are decoded from UTF-8, a byte
      that starts no valid encoding counts as U+FFFD, [strings.TrimSpace]
      cuts the Unicode white space and [strings.ToLower] maps every rune.
      The one part left open is the case table of the Go toolchain, which
      changes with its version of Unicode: it is the field [caseTable] of the
      environment, consulted for the runes above ASCII.
    - A Go [error] is its message; [(T, error)] is a pair whose second
      component is [None] for [nil].
    - The network, [encoding/json] and [time.Parse] are outside the program:
      they are the fields of an environment [Env].  Every network exchange
      advances a clock and is appended to a log, so an answer may depend on
      when the request is made, and the requests made can be counted.
    - [map[string]T] is stdpp's [gmap string T]. *)

From Stdlib Require Import ZArith Lia Ascii String List Bool.
From stdpp Require Import base option list gmap strings pretty.

Local Open Scope Z_scope.

(* ===================================================================== *)
(** ** Package [strings] *)
(* ===================================================================== *)

Module GoStrings.

(** *** Bytes and runes *)

Definition byteZ (c : ascii) : Z := Z.of_N (N_of_ascii c).
Definition zbyte (z : Z) : ascii := ascii_of_N (Z.to_N z).

Definition RuneError : Z := 65533.          (* U+FFFD *)
Definition RuneSelf : Z := 128.
Definition MaxRune : Z := 1114111.          (* U+10FFFF *)

Fixpoint take (n : nat) (s : string) : string :=
  match n, s with
  | S n', String c s' => String c (take n' s')
  | _, _ => EmptyString
  end.

Fixpoint skip (n : nat) (s : string) : string :=
  match n, s with
  | S n', String _ s' => skip n' s'
  | _, _ => s
  end.

(** [s[i]], for [i] in range *)
Definition byteAt (s : string) (i : nat) : Z :=
  match String.get i s with
  | Some c => byteZ c
  | None => 0
  end.

(** *** Package [unicode/utf8] *)

(** A continuation byte, 0x80 to 0xBF. *)
Definition isCont (b : Z) : bool := (128 <=? b) && (b <=? 191).

(** [utf8.RuneStart] *)
Definition RuneStart (b : Z) : bool := negb (isCont b).

(** What the table [first] of the package says of a first byte: a rune of
    one byte, no rune at all, or the size of the rune with the range accepted
    for its second byte. *)
Inductive FirstByte : Type :=
| fbASCII
| fbInvalid
| fbLead (size : nat) (lo hi : Z).

Definition first (b : Z) : FirstByte :=
  if b <? 128 then fbASCII
  else if b <? 194 then fbInvalid              (* 0x80-0xBF, 0xC0, 0xC1 *)
  else if b <? 224 then fbLead 2 128 191       (* 0xC2-0xDF *)
  else if b =? 224 then fbLead 3 160 191       (* 0xE0 *)
  else if b =? 237 then fbLead 3 128 159       (* 0xED *)
  else if b <? 240 then fbLead 3 128 191       (* 0xE1-0xEC, 0xEE, 0xEF *)
  else if b =? 240 then fbLead 4 144 191       (* 0xF0 *)
  else if b <? 244 then fbLead 4 128 191       (* 0xF1-0xF3 *)
  else if b =? 244 then fbLead 4 128 143       (* 0xF4 *)
  else fbInvalid.                              (* 0xF5-0xFF *)

(** [utf8.DecodeRuneInString]: the first rune of [s] and its width in bytes,
    [(RuneError, 1)] for a byte that starts no valid encoding.  The masks
    and shifts of the package are written with [mod] and products. *)
Definition DecodeRuneInString (s : string) : Z * nat :=
  match s with
  | EmptyString => (RuneError, 0%nat)
  | String c0 s1 =>
      let b0 := byteZ c0 in
      match first b0 with
      | fbASCII => (b0, 1%nat)
      | fbInvalid => (RuneError, 1%nat)
      | fbLead sz lo hi =>
          match s1 with
          | EmptyString => (RuneError, 1%nat)
          | String c1 s2 =>
              let b1 := byteZ c1 in
              if negb ((lo <=? b1) && (b1 <=? hi)) then (RuneError, 1%nat)
              else if (sz <=? 2)%nat then ((b0 mod 32) * 64 + b1 mod 64, 2%nat)
              else
                match s2 with
                | EmptyString => (RuneError, 1%nat)
                | String c2 s3 =>
                    let b2 := byteZ c2 in
                    if negb (isCont b2) then (RuneError, 1%nat)
                    else if (sz <=? 3)%nat
                    then ((b0 mod 16) * 4096 + (b1 mod 64) * 64 + b2 mod 64, 3%nat)
                    else
                      match s3 with
                      | EmptyString => (RuneError, 1%nat)
                      | String c3 _ =>
                          let b3 := byteZ c3 in
                          if negb (isCont b3) then (RuneError, 1%nat)
                          else ((b0 mod 8) * 262144 + (b1 mod 64) * 4096
                                + (b2 mod 64) * 64 + b3 mod 64, 4%nat)
                      end
                end
          end
      end
  end.

(** The loop of [utf8.DecodeLastRuneInString] that looks for the start of
    the last rune: [start] goes down from [end - 2] to [lim] and stops at a
    byte that can start a rune. *)
Fixpoint lastRuneStart (fuel : nat) (s : string) (start lim : Z) : Z :=
  match fuel with
  | O => start
  | S fuel' =>
      if start <? lim then start
      else if RuneStart (byteAt s (Z.to_nat start)) then start
      else lastRuneStart fuel' s (start - 1) lim
  end.

(** [utf8.DecodeLastRuneInString] *)
Definition DecodeLastRuneInString (s : string) : Z * nat :=
  let end_ := Z.of_nat (String.length s) in
  if end_ =? 0 then (RuneError, 0%nat) else
  let r := byteAt s (Z.to_nat (end_ - 1)) in
  if r <? RuneSelf then (r, 1%nat) else
  let lim := Z.max 0 (end_ - 4) in
  let found := lastRuneStart 4 s (end_ - 2) lim in
  let start := Z.max 0 found in
  let '(r, size) := DecodeRuneInString (skip (Z.to_nat start) s) in
  if negb (start + Z.of_nat size =? end_) then (RuneError, 1%nat) else (r, size).

Definition bytes2 (a b : Z) : string :=
  String (zbyte a) (String (zbyte b) EmptyString).
Definition bytes3 (a b c : Z) : string :=
  String (zbyte a) (String (zbyte b) (String (zbyte c) EmptyString)).
Definition bytes4 (a b c d : Z) : string :=
  String (zbyte a) (String (zbyte b) (String (zbyte c) (String (zbyte d) EmptyString))).

(** [utf8.EncodeRune]: a rune out of range or in the surrogate range is
    written as [RuneError]. *)
Definition EncodeRune (r : Z) : string :=
  if (0 <=? r) && (r <=? 127) then String (zbyte r) EmptyString
  else if (0 <=? r) && (r <=? 2047) then bytes2 (192 + r / 64) (128 + r mod 64)
  else if (r <? 0) || (MaxRune <? r) || ((55296 <=? r) && (r <=? 57343))
  then bytes3 239 191 189
  else if r <=? 65535
  then bytes3 (224 + r / 4096) (128 + (r / 64) mod 64) (128 + r mod 64)
  else bytes4 (240 + r / 262144) (128 + (r / 4096) mod 64)
              (128 + (r / 64) mod 64) (128 + r mod 64).

(** *** Package [unicode] *)

(** [unicode.IsSpace] *)
Definition IsSpace (r : Z) : bool :=
  if r <=? 255
  then ((9 <=? r) && (r <=? 13)) || (r =? 32) || (r =? 133) || (r =? 160)
  else (r =? 5760) || ((8192 <=? r) && (r <=? 8202)) || (r =? 8232) || (r =? 8233)
       || (r =? 8239) || (r =? 8287) || (r =? 12288).

(** [unicode.ToLower]: the ASCII letters are handled first; for the other
    runes the result comes from the case table of the toolchain, [table].
    U+FFFD has no case mapping. *)
Definition unicodeToLower (table : Z -> Z) (r : Z) : Z :=
  if r <=? 127 then (if (65 <=? r) && (r <=? 90) then r + 32 else r)
  else if r =? RuneError then r
  else table r.

(** *** Package [strings] *)

(** [if r >= 0 { b.WriteRune(r) }] of [strings.Map] *)
Definition WriteRune (r : Z) (rest : string) : string :=
  if r <? 0 then rest else EncodeRune r +:+ rest.

(** [strings.Map]: every rune of [s], an invalid byte counting as
    [RuneError], is replaced by the encoding of its image, and dropped when
    the image is negative.  (Go copies the runes that do not change; their
    bytes are the encoding of the rune.) *)
Fixpoint MapFrom (fuel : nat) (mapping : Z -> Z) (s : string) : string :=
  match fuel with
  | O => EmptyString
  | S fuel' =>
      match s with
      | EmptyString => EmptyString
      | String _ _ =>
          let '(c, width) := DecodeRuneInString s in
          WriteRune (mapping c) (MapFrom fuel' mapping (skip width s))
      end
  end.

Definition Map (mapping : Z -> Z) (s : string) : string :=
  MapFrom (String.length s) mapping s.

Fixpoint isASCII (s : string) : bool :=
  match s with
  | EmptyString => true
  | String c s' => (byteZ c <? RuneSelf) && isASCII s'
  end.

(** The byte loop of [strings.ToLower] for a string of ASCII bytes. *)
Fixpoint lowerASCII (s : string) : string :=
  match s with
  | EmptyString => EmptyString
  | String c s' =>
      let b := byteZ c in
      String (if (65 <=? b) && (b <=? 90) then zbyte (b + 32) else c) (lowerASCII s')
  end.

(** [strings.ToLower], with [unicode.ToLower] as [mapping] *)
Definition ToLowerBy (mapping : Z -> Z) (s : string) : string :=
  if isASCII s then lowerASCII s else Map mapping s.

(** [strings.TrimLeftFunc(s, unicode.IsSpace)] *)
Fixpoint TrimLeftFrom (fuel : nat) (s : string) : string :=
  match fuel with
  | O => EmptyString
  | S fuel' =>
      match s with
      | EmptyString => EmptyString
      | String _ _ =>
          let '(r, width) := DecodeRuneInString s in
          if IsSpace r then TrimLeftFrom fuel' (skip width s) else s
      end
  end.

Definition TrimLeftFunc (s : string) : string := TrimLeftFrom (String.length s) s.

(** [lastIndexFunc(s, unicode.IsSpace, false)]: where the last rune that is
    not white space starts, or -1. *)
Fixpoint lastIndexNotSpace (fuel : nat) (s : string) (i : nat) : Z :=
  match fuel with
  | O => -1
  | S fuel' =>
      if (i =? 0)%nat then -1 else
      let '(r, size) := DecodeLastRuneInString (take i s) in
      if IsSpace r then lastIndexNotSpace fuel' s (i - size)
      else Z.of_nat (i - size)
  end.

(** [strings.TrimRightFunc(s, unicode.IsSpace)] *)
Definition TrimRightFunc (s : string) : string :=
  let i := lastIndexNotSpace (String.length s) s (String.length s) in
  if (0 <=? i) && (RuneSelf <=? byteAt s (Z.to_nat i))
  then take (Z.to_nat i + snd (DecodeRuneInString (skip (Z.to_nat i) s))) s
  else take (Z.to_nat (i + 1)) s.

(** [strings.TrimFunc(s, unicode.IsSpace)] *)
Definition TrimFunc (s : string) : string := TrimRightFunc (TrimLeftFunc s).

Definition asciiSpace (b : Z) : bool := ((9 <=? b) && (b <=? 13)) || (b =? 32).

(** The second loop of [strings.TrimSpace], over [s[start:]]: [stop] goes
    down from the end over the ASCII white space. *)
Fixpoint TrimSpaceStop (s : string) (stop : nat) : string :=
  match stop with
  | O => EmptyString
  | S stop' =>
      let c := byteAt s stop' in
      if RuneSelf <=? c then TrimRightFunc (take stop s)
      else if asciiSpace c then TrimSpaceStop s stop'
      else take stop s
  end.

(** [strings.TrimSpace]: the first loop goes over the ASCII white space at
    the start; a byte that is not ASCII hands over to the functions that
    decode runes. *)
Fixpoint TrimSpace (s : string) : string :=
  match s with
  | EmptyString => EmptyString
  | String c s' =>
      let b := byteZ c in
      if RuneSelf <=? b then TrimFunc s
      else if asciiSpace b then TrimSpace s'
      else TrimSpaceStop s (String.length s)
  end.

Fixpoint HasPrefix (s prefix : string) {struct prefix} : bool :=
  match prefix, s with
  | EmptyString, _ => true
  | String _ _, EmptyString => false
  | String p prefix', String c s' => Ascii.eqb c p && HasPrefix s' prefix'
  end.

Fixpoint Contains (s substr : string) : bool :=
  HasPrefix s substr ||
  match s with
  | EmptyString => false
  | String _ s' => Contains s' substr
  end.

Definition HasSuffix (s suffix : string) : bool :=
  HasPrefix (String.rev s) (String.rev suffix).

Definition TrimSuffix (s suffix : string) : string :=
  if HasSuffix s suffix
  then take (String.length s - String.length suffix) s
  else s.

(** [Split s sep] for a separator of one byte, the only kind the program
    uses ("." and "\n").  Like Go's, it never returns the empty list. *)
Fixpoint Split (s : string) (sep : ascii) : list string :=
  match s with
  | EmptyString => [EmptyString]
  | String c s' =>
      if Ascii.eqb c sep then EmptyString :: Split s' sep
      else match Split s' sep with
           | [] => [String c EmptyString]
           | h :: t => String c h :: t
           end
  end.

(** [SplitN s sep 2]: cut at the first separator, if there is one. *)
Fixpoint SplitN2 (s : string) (sep : ascii) : list string :=
  match s with
  | EmptyString => [EmptyString]
  | String c s' =>
      if Ascii.eqb c sep then [EmptyString; s']
      else match SplitN2 s' sep with
           | h :: t => String c h :: t
           | [] => [String c EmptyString]
           end
  end.

Fixpoint Join (elems : list string) (sep : string) : string :=
  match elems with
  | [] => EmptyString
  | [e] => e
  | e :: rest => e +:+ sep +:+ Join rest sep
  end.

End GoStrings.

Import GoStrings.

(* ===================================================================== *)
(** ** checker.go: [Result] *)
(* ===================================================================== *)

Definition StatusRegistered : string := "registered".
Definition StatusAvailable : string := "available".
Definition StatusUnknown : string := "unknown".

(** [time.Time]: an instant, counted in nanoseconds from the zero time. *)
Definition Time : Type := Z.
Definition IsZero (t : Time) : bool := (t =? 0)%Z.
Definition zeroTime : Time := 0.

Definition error : Type := string.

Record Result : Type := mkResult {
  Domain : string;
  Status : string;
  Registrar : string;
  Expiry : option Time;
  Source : string;
  Err : string
}.

(** [Result{}] *)
Definition zeroResult : Result := mkResult "" "" "" None "" "".

(** [Result{Domain: domain, Status: status}] *)
Definition newResult (domain status : string) : Result :=
  mkResult domain status "" None "" "".

Definition setSource (r : Result) (src : string) : Result :=
  mkResult (Domain r) (Status r) (Registrar r) (Expiry r) src (Err r).

Definition setRegistrar (r : Result) (reg : string) : Result :=
  mkResult (Domain r) (Status r) reg (Expiry r) (Source r) (Err r).

Definition setExpiry (r : Result) (t : Time) : Result :=
  mkResult (Domain r) (Status r) (Registrar r) (Some t) (Source r) (Err r).

(* ===================================================================== *)
(** ** The environment: network, [encoding/json], [time.Parse] *)
(* ===================================================================== *)

(** What [io.ReadAll] gives. *)
Inductive ReadResult : Type :=
| ReadFail (e : error)
| ReadOk (data : string).

(** What [http.Client.Get] gives: an error, or a response with its status
    code and the body still to be read. *)
Inductive HttpResponse : Type :=
| HttpErr (e : error)
| HttpResp (StatusCode : Z) (Body : ReadResult).

(** A WHOIS exchange on port 43: dial, write the query line, read until the
    peer closes.  Each of the three may fail. *)
Inductive WhoisExchange : Type :=
| DialFail (e : error)
| WriteFail (e : error)
| WhoisReadFail (e : error)
| WhoisReply (body : string).

(** A decoded [interface{}] of [encoding/json] (numbers without their
    fraction, which the program never reads). *)
#[local] Unset Elimination Schemes.
Inductive JValue : Type :=
| JNull
| JBool (b : bool)
| JNumber (n : Z)
| JString (s : string)
| JArray (items : list JValue)
| JObject (fields : list (string * JValue)).
#[local] Set Elimination Schemes.

(** The anonymous struct [d] that [queryServer] decodes an RDAP answer into. *)
Record RDAPEvent : Type := mkEvent {
  Action : string;
  Date : string
}.

Record RDAPEntity : Type := mkEntity {
  Roles : list string;
  VCardArray : JValue
}.

Record RDAPDomain : Type := mkDomain {
  LDHName : string;
  DStatus : list string;
  Events : list RDAPEvent;
  Entities : list RDAPEntity
}.

Inductive Request : Type :=
| ReqGet (url : string)
| ReqWhois (addr : string) (line : string).

Record Env : Type := mkEnv {
  (** the answer to the [n]-th network exchange of the process, a GET *)
  http_answer : nat -> string -> HttpResponse;
  (** the answer to the [n]-th network exchange, a WHOIS query *)
  whois_answer : nat -> string -> string -> WhoisExchange;
  (** [json.Unmarshal] into [struct{ Services [][][]string }] *)
  json_services : string -> error + list (list (list string));
  (** [json.Unmarshal] into the struct [d] of [queryServer] *)
  json_domain : string -> error + RDAPDomain;
  (** [time.Parse layout value] *)
  time_Parse : string -> string -> option Time;
  (** the lower case of a rune above ASCII in the case table of [unicode] *)
  caseTable : Z -> Z
}.

(** [RDAPClient], without its [http.Client] and its lock. *)
Record RDAPClient : Type := mkRDAPClient {
  bootstrap : gmap string (list string);
  loaded : bool
}.

(** [NewRDAPClient] *)
Definition NewRDAPClient : RDAPClient := mkRDAPClient ∅ false.

(** The state of the process: the shared client, and the network exchanges
    made so far. *)
Record World : Type := mkWorld {
  rdap : RDAPClient;
  clock : nat;
  log : list Request
}.

Definition initWorld : World := mkWorld NewRDAPClient 0%nat [].

(** *** The state monad of the process *)

Definition M (A : Type) : Type := World -> A * World.

Definition ret {A} (a : A) : M A := fun w => (a, w).

Definition bind {A B} (m : M A) (k : A -> M B) : M B :=
  fun w => let '(a, w') := m w in k a w'.

Notation "x <- m ;; k" := (bind m (fun x => k))
  (at level 100, m at next level, right associativity).

Definition getClient : M RDAPClient := fun w => (rdap w, w).

Definition putClient (c : RDAPClient) : M unit :=
  fun w => (tt, mkWorld c (clock w) (log w)).

Section Program.

Variable env : Env.

(** [strings.ToLower] *)
Definition ToLower (s : string) : string :=
  ToLowerBy (unicodeToLower (caseTable env)) s.

(** [c.http.Get(url)] *)
Definition httpGet (url : string) : M HttpResponse :=
  fun w => (http_answer env (clock w) url,
            mkWorld (rdap w) (S (clock w)) (log w ++ [ReqGet url])).

(** dial [addr], write [line], read all *)
Definition whoisExchange (addr line : string) : M WhoisExchange :=
  fun w => (whois_answer env (clock w) addr line,
            mkWorld (rdap w) (S (clock w)) (log w ++ [ReqWhois addr line])).

(* =================================================================== *)
(** ** rdap.go *)
(* =================================================================== *)

Definition bootstrapURL : string := "https://data.iana.org/rdap/dns.json".

(** The loop over [bf.Services] of [loadBootstrap]. *)
Definition addService (m : gmap string (list string)) (svc : list (list string))
  : gmap string (list string) :=
  match svc with
  | tlds :: servers :: _ =>
      fold_left (fun m tld => <[ToLower tld := servers]> m) tlds m
  | _ => m                         (* len(svc) < 2: continue *)
  end.

Definition addServices (m : gmap string (list string))
    (services : list (list (list string))) : gmap string (list string) :=
  fold_left addService services m.

Definition loadBootstrap : M (option error) :=
  c <- getClient ;;
  if loaded c then ret None else
  resp <- httpGet bootstrapURL ;;
  match resp with
  | HttpErr e => ret (Some ("获取 RDAP bootstrap 失败: " +:+ e))
  | HttpResp _ (ReadFail e) => ret (Some e)
  | HttpResp _ (ReadOk body) =>
      match json_services env body with
      | inl e => ret (Some ("解析 bootstrap JSON 失败: " +:+ e))
      | inr services =>
          _ <- putClient (mkRDAPClient (addServices (bootstrap c) services) true) ;;
          ret None
      end
  end.

(** The lookup of [servers], after [loadBootstrap] has succeeded. *)
Definition lookupServers (m : gmap string (list string)) (domain : string)
  : list string * option error :=
  let parts := Split domain "." in
  if (length parts <? 2)%nat then ([], Some ("无效域名: " +:+ domain)) else
  let tld := List.last parts "" in
  let single :=
    match m !! tld with
    | Some srvs => (srvs, None)
    | None => ([], Some ("未找到 TLD 的 RDAP 服务器: " +:+ tld))
    end in
  if (3 <=? length parts)%nat then
    let tld2 := Join (drop (length parts - 2) parts) "." in
    match m !! tld2 with
    | Some srvs => (srvs, None)
    | None => single
    end
  else single.

Definition servers (domain : string) : M (list string * option error) :=
  err <- loadBootstrap ;;
  match err with
  | Some e => ret ([], Some e)
  | None => c <- getClient ;; ret (lookupServers (bootstrap c) domain)
  end.

(** [extractVCardFN]: the loop over the properties. *)
Fixpoint vcardFN (props : list JValue) : string :=
  match props with
  | [] => ""
  | JArray prop :: rest =>
      if (length prop <? 4)%nat then vcardFN rest else
      match prop !! 0%nat, prop !! 3%nat with
      | Some (JString name), Some (JString val) =>
          if String.eqb name "fn" then val else vcardFN rest
      | _, _ => vcardFN rest
      end
  | _ :: rest => vcardFN rest
  end.

Definition extractVCardFN (vc : JValue) : string :=
  match vc with
  | JArray arr =>
      if (length arr <? 2)%nat then "" else
      match arr !! 1%nat with
      | Some (JArray props) => vcardFN props
      | _ => ""
      end
  | _ => ""
  end.

Definition RFC3339 : string := "2006-01-02T15:04:05Z07:00".

(** The loop over [d.Events]. *)
Definition expiryOfEvents (evs : list RDAPEvent) (result : Result) : Result :=
  fold_left (fun r ev =>
    if String.eqb (Action ev) "expiration" then
      match time_Parse env RFC3339 (Date ev) with
      | Some t => setExpiry r t
      | None => r
      end
    else r) evs result.

(** The inner loop over [entity.Roles]: it stops at the first "registrar". *)
Fixpoint registrarOfRoles (roles : list string) (entity : RDAPEntity)
    (result : Result) : Result :=
  match roles with
  | [] => result
  | role :: rest =>
      if String.eqb role "registrar"
      then setRegistrar result (extractVCardFN (VCardArray entity))   (* break *)
      else registrarOfRoles rest entity result
  end.

(** The outer loop over [d.Entities]. *)
Definition registrarOfEntities (ents : list RDAPEntity) (result : Result) : Result :=
  fold_left (fun r entity => registrarOfRoles (Roles entity) entity r) ents result.

(** [queryServer], from the decoded body on. *)
Definition resultOfDomain (domain : string) (d : RDAPDomain) : Result :=
  registrarOfEntities (Entities d)
    (expiryOfEvents (Events d) (newResult domain StatusRegistered)).

(** [queryServer], from the response on. *)
Definition readServer (domain : string) (resp : HttpResponse) : Result * option error :=
  match resp with
  | HttpErr e => (zeroResult, Some e)
  | HttpResp code body =>
      if code =? 404 then (newResult domain StatusAvailable, None)
      else if negb (code =? 200) then (zeroResult, Some ("HTTP " +:+ pretty code))
      else match body with
           | ReadFail e => (zeroResult, Some e)
           | ReadOk data =>
               match json_domain env data with
               | inl e => (zeroResult, Some ("解析 RDAP 响应失败: " +:+ e))
               | inr d => (resultOfDomain domain d, None)
               end
           end
  end.

Definition queryServer (url domain : string) : M (Result * option error) :=
  resp <- httpGet url ;;
  ret (readServer domain resp).

Definition serverURL (srv domain : string) : string :=
  TrimSuffix srv "/" +:+ "/domain/" +:+ domain.

(** The loop of [Query] over the servers, with the return after it. *)
Fixpoint queryServers (srvs : list string) (domain : string) : M (Result * option error) :=
  match srvs with
  | [] => ret (zeroResult, Some ("所有 RDAP 服务器均失败: " +:+ domain))
  | srv :: rest =>
      res <- queryServer (serverURL srv domain) domain ;;
      match snd res with
      | None => ret (fst res, None)
      | Some _ => queryServers rest domain
      end
  end.

(** [RDAPClient.Query] *)
Definition RDAPQuery (domain : string) : M (Result * option error) :=
  found <- servers domain ;;
  match snd found with
  | Some e => ret (zeroResult, Some e)
  | None => queryServers (fst found) domain
  end.

(* =================================================================== *)
(** ** whois.go *)
(* =================================================================== *)

Definition whoisServers : gmap string string :=
  list_to_map
    [ ("ac", "whois.nic.ac");
      ("ae", "whois.aeda.net.ae");
      ("ai", "whois.nic.ai");
      ("app", "whois.nic.google");
      ("au", "whois.auda.org.au");
      ("biz", "whois.biz");
      ("ca", "whois.cira.ca");
      ("cc", "ccwhois.verisign-grs.com");
      ("cn", "whois.cnnic.cn");
      ("co", "whois.nic.co");
      ("com", "whois.verisign-grs.com");
      ("de", "whois.denic.de");
      ("dev", "whois.nic.google");
      ("edu", "whois.educause.edu");
      ("fr", "whois.nic.fr");
      ("hk", "whois.hkirc.hk");
      ("info", "whois.afilias.net");
      ("io", "whois.nic.io");
      ("jp", "whois.jprs.jp");
      ("kr", "whois.kr");
      ("me", "whois.nic.me");
      ("mobi", "whois.dotmobiregistry.net");
      ("net", "whois.verisign-grs.com");
      ("org", "whois.pir.org");
      ("ru", "whois.tcinet.ru");
      ("sh", "whois.nic.sh");
      ("so", "whois.nic.so");
      ("tv", "tvwhois.verisign-grs.com");
      ("uk", "whois.nic.uk");
      ("us", "whois.nic.us");
      ("xyz", "whois.nic.xyz") ].

Definition notRegisteredMarkers : list string :=
  [ "no match for";
    "not found";
    "no entries found";
    "no data found";
    "object does not exist";
    "no objects found";
    "domain not found";
    "status: free";
    "available for registration";
    "this domain name has not been registered" ].

Definition registeredMarkers : list string :=
  [ "domain name:";
    "registrar:";
    "creation date:";
    "registered on:";
    "domain status:";
    "registrant:";
    "registry domain id:";
    "nserver:" ].

(** [WHOISClient.server] *)
Definition server (domain : string) : string * option error :=
  let parts := Split domain "." in
  if (length parts <? 2)%nat then ("", Some ("无效域名: " +:+ domain)) else
  let tld := List.last parts "" in
  let single :=
    match whoisServers !! tld with
    | Some srv => (srv, None)
    | None => ("", Some ("未找到 TLD 的 WHOIS 服务器: " +:+ tld))
    end in
  if (3 <=? length parts)%nat then
    let tld2 := Join (drop (length parts - 2) parts) "." in
    match whoisServers !! tld2 with
    | Some srv => (srv, None)
    | None => single
    end
  else single.

Definition LF : ascii := "010"%char.
Definition CRLF : string := String "013"%char (String "010"%char "").

(** The loop of [whoisField] over the lines of the body. *)
Fixpoint whoisFieldLines (lines : list string) (lowerField : string) : string :=
  match lines with
  | [] => ""
  | line :: rest =>
      let trimmed := TrimSpace line in
      if HasPrefix (ToLower trimmed) lowerField then
        match SplitN2 trimmed ":" with
        | [_; value] => TrimSpace value
        | _ => whoisFieldLines rest lowerField
        end
      else whoisFieldLines rest lowerField
  end.

Definition whoisField (body field : string) : string :=
  whoisFieldLines (Split body LF) (ToLower field +:+ ":").

Definition whoisDateFormats : list string :=
  [ RFC3339;
    "2006-01-02T15:04:05Z";
    "2006-01-02";
    "02-Jan-2006";
    "2006.01.02";
    "02/01/2006" ].

Fixpoint parseWhoisDateIn (formats : list string) (s : string) : Time :=
  match formats with
  | [] => zeroTime
  | f :: rest =>
      match time_Parse env f s with
      | Some t => t
      | None => parseWhoisDateIn rest s
      end
  end.

Definition parseWhoisDate (s : string) : Time :=
  parseWhoisDateIn whoisDateFormats (TrimSpace s).

Definition expiryFields : list string :=
  [ "Registry Expiry Date"; "Expiry Date"; "Expiration Date"; "paid-till" ].

(** The loop of [parseWHOIS] over the expiry field names. *)
Fixpoint expiryOfFields (fields : list string) (body : string) (result : Result) : Result :=
  match fields with
  | [] => result
  | field :: rest =>
      let t := parseWhoisDate (whoisField body field) in
      if negb (IsZero t) then setExpiry result t               (* break *)
      else expiryOfFields rest body result
  end.

(** [for _, marker := range markers { if strings.Contains(lower, marker) ... }]:
    whether the loop reaches its body. *)
Definition anyMarker (markers : list string) (lower : string) : bool :=
  existsb (Contains lower) markers.

Definition parseWHOIS (domain body : string) : Result :=
  let lower := ToLower body in
  if anyMarker notRegisteredMarkers lower then newResult domain StatusAvailable
  else if anyMarker registeredMarkers lower then
    expiryOfFields expiryFields body
      (setRegistrar (newResult domain StatusRegistered) (whoisField body "Registrar"))
  else newResult domain StatusUnknown.

(** [WHOISClient.Query] *)
Definition WHOISQuery (domain : string) : M (Result * option error) :=
  match server domain with
  | (_, Some e) => ret (zeroResult, Some e)
  | (srv, None) =>
      x <- whoisExchange (srv +:+ ":43") (domain +:+ CRLF) ;;
      match x with
      | DialFail e =>
          ret (zeroResult, Some ("连接 WHOIS 服务器失败 " +:+ srv +:+ ": " +:+ e))
      | WriteFail e => ret (zeroResult, Some ("发送 WHOIS 查询失败: " +:+ e))
      | WhoisReadFail e => ret (zeroResult, Some ("读取 WHOIS 响应失败: " +:+ e))
      | WhoisReply body =>
          let result := parseWHOIS domain body in
          if String.eqb (Status result) StatusUnknown
          then ret (result, Some ("无法解析 WHOIS 响应: " +:+ domain))
          else ret (result, None)
      end
  end.

(* =================================================================== *)
(** ** checker.go *)
(* =================================================================== *)

Definition normalize (domain : string) : string := ToLower (TrimSpace domain).

(** [Checker.Check] *)
Definition Check (domain : string) : M Result :=
  let domain := normalize domain in
  res <- RDAPQuery domain ;;
  match snd res with
  | None => ret (setSource (fst res) "rdap")
  | Some _ =>
      res <- WHOISQuery domain ;;
      match snd res with
      | Some e => ret (mkResult domain StatusUnknown "" None "" e)
      | None => ret (setSource (fst res) "whois")
      end
  end.

(* =================================================================== *)
(** ** main.go: [queryAll] *)
(* =================================================================== *)

(** Where the goroutine of one domain stands: before [sem <- struct{}{}],
    holding a slot, with [results[i]] written and the slot still held, and
    after the deferred [<-sem] and [wg.Done()]. *)
Inductive Phase : Type := Waiting | Running | Written | Finished.

Record Batch : Type := mkBatch {
  phases : list Phase;
  results : list Result;
  sem : nat;                         (* len(sem) *)
  world : World
}.

(** The state after the [for] loop has started every goroutine.
    [make(chan struct{}, concurrency)] panics on a negative size. *)
Definition queryAllInit (domains : list string) (concurrency : Z) : option Batch :=
  if concurrency <? 0 then None
  else Some (mkBatch (replicate (length domains) Waiting)
                     (replicate (length domains) zeroResult)
                     0%nat initWorld).

(** One step of one goroutine.  A send on [sem] goes through when the
    buffer has room ([len(sem) < cap(sem)]; with capacity 0 it would need a
    receiver already waiting, and the only receives come after a send), a
    receive when the buffer is not empty.  [Check] is one step: what it
    shares with the other goroutines is the client, which it reads and
    writes under the client's lock. *)
Inductive step (domains : list string) (concurrency : Z) : Batch -> Batch -> Prop :=
| step_acquire i s :
    phases s !! i = Some Waiting ->
    Z.of_nat (sem s) < concurrency ->
    step domains concurrency s
      (mkBatch (<[i := Running]> (phases s)) (results s) (S (sem s)) (world s))
| step_check i s domain :
    phases s !! i = Some Running ->
    domains !! i = Some domain ->
    step domains concurrency s
      (mkBatch (<[i := Written]> (phases s))
               (<[i := fst (Check domain (world s))]> (results s))
               (sem s)
               (snd (Check domain (world s))))
| step_release i s :
    phases s !! i = Some Written ->
    (0 < sem s)%nat ->
    step domains concurrency s
      (mkBatch (<[i := Finished]> (phases s)) (results s) (pred (sem s)) (world s)).

Inductive reachable (domains : list string) (concurrency : Z) : Batch -> Prop :=
| reach_init s : queryAllInit domains concurrency = Some s -> reachable domains concurrency s
| reach_step s s' :
    reachable domains concurrency s -> step domains concurrency s s' ->
    reachable domains concurrency s'.

(** [wg.Wait()] returns: every goroutine has called [wg.Done()]. *)
Definition allFinished (s : Batch) : Prop :=
  Forall (fun p => p = Finished) (phases s).

Definition holdsSlot (p : Phase) : bool :=
  match p with Running | Written => true | _ => false end.

(** The goroutines between [sem <- struct{}{}] and [<-sem]. *)
Definition inFlight (s : Batch) : nat :=
  length (filter (fun p => holdsSlot p = true) (phases s)).

End Program.

(* ===================================================================== *)
(** ** Fixtures: concrete environments and answers *)
(* ===================================================================== *)

Module Fixture.

(** An excerpt of the case table: the capital letters of Latin-1, the
    dotted capital I and the Kelvin sign. *)
Definition caseExcerpt (r : Z) : Z :=
  if (192 <=? r) && (r <=? 222) && negb (r =? 215) then r + 32
  else if r =? 304 then 105
  else if r =? 8490 then 107
  else r.

(** U+00A0, the no-break space, and U+3000, the ideographic space. *)
Definition NBSP : string := bytes2 194 160.
Definition IDSP : string := bytes3 227 128 128.

(** An environment without network: every exchange fails, nothing decodes. *)
Definition offline : Env :=
  mkEnv (fun _ _ => HttpErr "dial tcp: i/o timeout")
        (fun _ _ _ => DialFail "i/o timeout")
        (fun _ => inl "unexpected end of JSON input")
        (fun _ => inl "unexpected end of JSON input")
        (fun _ _ => None)
        caseExcerpt.

(** A body made of lines, each ended by a line feed. *)
Definition text (lines : list string) : string :=
  Join lines (String LF "").

Definition noMatchBody : string :=
  text [ "No match for DOMAIN.COM"; "Registrar: none"; "" ].

Definition registeredBody : string :=
  text [ "   Domain Name: EXAMPLE.COM";
         "   Registrar WHOIS Server: whois.example.net";
         NBSP +:+ "  Registrar: Example Inc." +:+ IDSP;
         "   REGİSTRAR: Another Name";
         "" ].

(** A name card with the display name [name]. *)
Definition vcard (name : string) : JValue :=
  JArray [ JString "vcard";
           JArray [ JArray [JString "version"; JObject []; JString "text"; JString "4.0"];
                    JArray [JString "fn"; JObject []; JString "text"; JString name] ] ].

Definition twoRegistrars : RDAPDomain :=
  mkDomain "example.net" []
    [ mkEvent "expiration" "2026-08-13T00:00:00Z" ]
    [ mkEntity ["registrar"] (vcard "First Registrar");
      mkEntity ["abuse"; "registrar"] (vcard "Second Registrar");
      mkEntity ["technical"] (vcard "Somebody") ].

(** A registry: three endpoints for "com", of which the first answers 500,
    the second cannot be reached and the third answers 404; one endpoint
    for "net", which answers 200. *)
Definition registryAnswer (url : string) : HttpResponse :=
  if String.eqb url "https://data.iana.org/rdap/dns.json"
  then HttpResp 200 (ReadOk "services")
  else if String.eqb url "https://rdap.a.example/domain/example.com"
  then HttpResp 500 (ReadOk "")
  else if String.eqb url "https://rdap.c.example/domain/example.com"
  then HttpResp 404 (ReadOk "")
  else if String.eqb url "https://rdap.d.example/domain/example.net"
  then HttpResp 200 (ReadOk "two registrars")
  else HttpErr "no such host".

Definition registryServices : list (list (list string)) :=
  [ [ ["COM"];
      ["https://rdap.a.example/"; "https://rdap.b.example/"; "https://rdap.c.example/"] ];
    [ ["net"]; ["https://rdap.d.example"] ] ].

Definition decodeServices (body : string) : error + list (list (list string)) :=
  if String.eqb body "services" then inr registryServices
  else inl "invalid character".

Definition decodeDomain (body : string) : error + RDAPDomain :=
  if String.eqb body "two registrars" then inr twoRegistrars
  else inl "invalid character".

Definition parseTime (layout value : string) : option Time :=
  if String.eqb value "2026-08-13T00:00:00Z" then Some 63922176000000000000
  else None.

Definition online : Env :=
  mkEnv (fun _ url => registryAnswer url)
        (fun _ _ _ => DialFail "connection refused")
        decodeServices decodeDomain parseTime caseExcerpt.

(** The same registry, unreachable for the first exchange of the process. *)
Definition flaky : Env :=
  mkEnv (fun n url => if (n =? 0)%nat then HttpErr "i/o timeout" else registryAnswer url)
        (fun _ _ _ => DialFail "connection refused")
        decodeServices decodeDomain parseTime caseExcerpt.

End Fixture.

(* ===================================================================== *)
(** ** Definitions used to state the properties *)
(* ===================================================================== *)

(** The resolution the specification describes for the built-in table: a
    direct lookup of the last label. *)
Definition serverByLastLabel (domain : string) : string * option error :=
  let tld := List.last (Split domain ".") "" in
  match whoisServers !! tld with
  | Some srv => (srv, None)
  | None => ("", Some ("未找到 TLD 的 WHOIS 服务器: " +:+ tld))
  end.

(** Whether the roles of an entity include "registrar". *)
Definition isRegistrar (entity : RDAPEntity) : bool :=
  existsb (fun role => String.eqb role "registrar") (Roles entity).

(** The registrar the specification describes: the display name of the
    first entity whose roles include "registrar". *)
Definition registrarOfFirst (ents : list RDAPEntity) : string :=
  match find isRegistrar ents with
  | Some entity => extractVCardFN (VCardArray entity)
  | None => ""
  end.

(** The display name of the last entity whose roles include "registrar". *)
Definition registrarOfLast (ents : list RDAPEntity) : string :=
  match find isRegistrar (rev ents) with
  | Some entity => extractVCardFN (VCardArray entity)
  | None => ""
  end.

(** The world after GETs of [urls], one after the other. *)
Definition afterGets (w : World) (urls : list string) : World :=
  mkWorld (rdap w) (clock w + length urls) (log w ++ map ReqGet urls).

(** What [queryServer] returns for the [k]-th endpoint tried from world [w]. *)
Definition endpointOutcome (env : Env) (domain : string) (w : World)
    (k : nat) (srv : string) : Result * option error :=
  readServer env domain (http_answer env (clock w + k) (serverURL srv domain)).

Definition endpointFails (env : Env) (domain : string) (w : World)
    (k : nat) (srv : string) : Prop :=
  snd (endpointOutcome env domain w k srv) <> None.

(** A response that is neither a 404 nor a 200 with a body that decodes:
    a transport error, another status, a body that cannot be read or parsed. *)
Definition softFailure (env : Env) (resp : HttpResponse) : bool :=
  match resp with
  | HttpErr _ => true
  | HttpResp code body =>
      negb (code =? 404) &&
      (negb (code =? 200) ||
       match body with
       | ReadFail _ => true
       | ReadOk data => match json_domain env data with inl _ => true | inr _ => false end
       end)
  end.

Definition allEndpointsFailed (domain : string) : error :=
  "所有 RDAP 服务器均失败: " +:+ domain.

(** The fetch of the bootstrap document made in world [w] fails: the GET
    fails, or the body cannot be read, or it cannot be parsed. *)
Definition bootstrapFetchFails (env : Env) (w : World) : bool :=
  match http_answer env (clock w) bootstrapURL with
  | HttpErr _ => true
  | HttpResp _ (ReadFail _) => true
  | HttpResp _ (ReadOk body) =>
      match json_services env body with inl _ => true | inr _ => false end
  end.

(** All fields of a result but registrar and expiry. *)
Definition sameButRegistrarExpiry (r r' : Result) : Prop :=
  Domain r' = Domain r /\ Status r' = Status r /\
  Source r' = Source r /\ Err r' = Err r.

#[global] Instance Phase_eq_dec : EqDecision Phase.
Proof. solve_decision. Defined.

(** The steps a goroutine in phase [p] still has to take. *)
Definition stepsLeft (p : Phase) : nat :=
  match p with Waiting => 3 | Running => 2 | Written => 1 | Finished => 0 end%nat.

(** The steps the whole batch still has to take. *)
Definition remaining (s : Batch) : nat := sum_list (stepsLeft <$> phases s).

Definition slotsOf (p : Phase) : nat := if holdsSlot p then 1%nat else 0%nat.

(** What holds in every state of a batch. *)
Definition batchInvariant (env : Env) (domains : list string) (concurrency : Z)
    (s : Batch) : Prop :=
  length (phases s) = length domains /\
  length (results s) = length domains /\
  sem s = inFlight s /\
  Z.of_nat (sem s) <= concurrency /\
  forall i domain,
    domains !! i = Some domain ->
    phases s !! i = Some Written \/ phases s !! i = Some Finished ->
    exists r, results s !! i = Some r /\ Domain r = normalize env domain.


(* ===================================================================== *)
(** ** Definitions used to state further properties *)
(* ===================================================================== *)

(** Whether the bootstrap entry [svc] has a server list and names a TLD that
    is [k] once lowercased. *)
Definition serviceLists (env : Env) (k : string) (svc : list (list string)) : bool :=
  match svc with
  | tlds :: _ :: _ => existsb (fun tld => String.eqb (ToLower env tld) k) tlds
  | _ => false
  end.

(** The server list of a bootstrap entry. *)
Definition serviceServers (svc : list (list string)) : list string :=
  match svc with
  | _ :: servers :: _ => servers
  | _ => []
  end.

(** The date of an event, when the event is an expiration whose date parses. *)
Definition expiryDate (env : Env) (ev : RDAPEvent) : option Time :=
  if String.eqb (Action ev) "expiration"
  then time_Parse env RFC3339 (Date ev)
  else None.

(** The date of the last event that is an expiration whose date parses. *)
Definition lastExpiry (env : Env) (evs : list RDAPEvent) : option Time :=
  match find (fun ev => bool_decide (is_Some (expiryDate env ev))) (rev evs) with
  | Some ev => expiryDate env ev
  | None => None
  end.

(** Whether a line of a WHOIS body, trimmed and lowercased, starts with the
    label [lowerField]. *)
Definition lineHasField (env : Env) (lowerField line : string) : bool :=
  HasPrefix (ToLower env (TrimSpace line)) lowerField.

(** What follows the first colon of [s], when [s] has a colon. *)
Fixpoint afterFirstColon (s : string) : option string :=
  match s with
  | EmptyString => None
  | String c s' => if Ascii.eqb c ":" then Some s' else afterFirstColon s'
  end.

(** A line of a WHOIS body in which [whoisField] finds the label
    [lowerField]: trimmed and lowercased it starts with the label, and
    trimmed it has a colon. *)
Definition lineGivesField (env : Env) (lowerField line : string) : bool :=
  lineHasField env lowerField line &&
  bool_decide (is_Some (afterFirstColon (TrimSpace line))).

(** No byte of [s] is a colon. *)
Fixpoint noColon (s : string) : bool :=
  match s with
  | EmptyString => true
  | String c s' => negb (Ascii.eqb c ":") && noColon s'
  end.

(** A rune that [utf8.EncodeRune] writes as itself. *)
Definition validRune (r : Z) : bool :=
  (0 <=? r) && (r <=? MaxRune) && negb ((55296 <=? r) && (r <=? 57343)).

(** The rune that is read back from what [utf8.EncodeRune] wrote for [r]. *)
Definition decoded (r : Z) : Z := if validRune r then r else RuneError.

(** The lower case of a rune is its own lower case: [unicode.ToLower] with
    the case table [table] changes no rune that it returns. *)
Definition lowerFixed (table : Z -> Z) : Prop :=
  forall r, unicodeToLower table (unicodeToLower table r) = unicodeToLower table r.

(** The string is empty or starts with a byte that can start a rune. *)
Definition startsRune (s : string) : bool :=
  match s with
  | EmptyString => true
  | String c _ => RuneStart (byteZ c)
  end.

(** Further answers and documents. *)
Module Sample.

(** Three expiration events, the last with a date that does not parse, and
    an event of another kind. *)
Definition renewed : RDAPDomain :=
  mkDomain "example.org" []
    [ mkEvent "expiration" "2025-08-13T00:00:00Z";
      mkEvent "last changed" "2026-08-13T00:00:00Z";
      mkEvent "expiration" "2026-08-13T00:00:00Z";
      mkEvent "expiration" "next year" ]
    [].

Definition parseTime (layout value : string) : option Time :=
  if String.eqb value "2026-08-13T00:00:00Z" then Some 63922176000000000000
  else if String.eqb value "2025-08-13T00:00:00Z" then Some 63890640000000000000
  else None.

(** A registry with one endpoint for "org", and a WHOIS server that answers
    every query with the same [reply]. *)
Definition registry (reply : WhoisExchange) : Env :=
  mkEnv (fun _ url =>
           if String.eqb url "https://data.iana.org/rdap/dns.json"
           then HttpResp 200 (ReadOk "services")
           else if String.eqb url "https://rdap.e.example/domain/example.org"
           then HttpResp 200 (ReadOk "renewed")
           else HttpErr "no such host")
        (fun _ _ _ => reply)
        (fun body => if String.eqb body "services"
                     then inr [ [ ["org"]; ["https://rdap.e.example/"] ];
                                [ ["ORG"; "Info"] ];
                                [ ["info"; "io"]; ["https://rdap.f.example/"]; ["unused"] ] ]
                     else inl "invalid character")
        (fun body => if String.eqb body "renewed" then inr renewed
                     else inl "invalid character")
        parseTime Fixture.caseExcerpt.

Definition datedBody : string :=
  Fixture.text [ "Domain Name: example.io";
                 "  Updated Date: 2024-01-01T10:00:00Z  " +:+ Fixture.IDSP;
                 "updated date: later";
                 Fixture.NBSP +:+ "REGİSTRAR: Foo";
                 "Registry Expiry Date:" ].

Definition unclassifiedBody : string :=
  Fixture.text [ "% This query returned 0 objects."; "" ].

(** A body whose only label is written with the dotted capital I. *)
Definition dottedBody : string :=
  Fixture.text [ "REGİSTRAR: Foo"; "" ].

(** Domains as they may be typed: with blanks, no-break spaces and an
    ideographic space around them, and with capital letters. *)
Definition padded (domain : string) : string :=
  Fixture.NBSP +:+ domain +:+ Fixture.NBSP.

Definition typed : list string :=
  [ "  A.com "; padded "b.NET"; "MÜNCHEN.de" +:+ Fixture.IDSP ].

End Sample.

(** The answers of the network do not depend on when a request is made. *)
Definition timeless (env : Env) : Prop :=
  (forall n m url, http_answer env n url = http_answer env m url) /\
  (forall n m addr line, whois_answer env n addr line = whois_answer env m addr line).

(** What a call of [loadBootstrap] in world [w] returns and the client it
    leaves. *)
Definition loadOutcome (env : Env) (w : World) : option error * RDAPClient :=
  (fst (loadBootstrap env w), rdap (snd (loadBootstrap env w))).

(* ===================================================================== *)
(** ** Facts about package [strings] *)
(* ===================================================================== *)

Ltac break_if :=
  repeat match goal with
         | |- context [if ?c then _ else _] => destruct c eqn:?
         end.

Ltac solve_bool :=
  repeat match goal with
         | H : (_ && _) = true |- _ => apply andb_true_iff in H as [? ?]
         | H : (_ || _) = false |- _ => apply orb_false_iff in H as [? ?]
         | H : negb _ = true |- _ => apply negb_true_iff in H
         | H : negb _ = false |- _ => apply negb_false_iff in H
         | H : (_ && _) = false |- _ => apply andb_false_iff in H as [?|?]
         | H : (_ || _) = true |- _ => apply orb_true_iff in H as [?|?]
         | H : (_ <=? _) = true |- _ => apply Z.leb_le in H
         | H : (_ <=? _) = false |- _ => apply Z.leb_gt in H
         | H : (_ <? _) = true |- _ => apply Z.ltb_lt in H
         | H : (_ <? _) = false |- _ => apply Z.ltb_ge in H
         | H : (_ =? _) = true |- _ => apply Z.eqb_eq in H
         | H : (_ =? _) = false |- _ => apply Z.eqb_neq in H
         end.

Ltac dm_lia := Z.div_mod_to_equations; lia.

Ltac bool_lia :=
  repeat match goal with
         | |- context [?a <=? ?b] =>
             first [ replace (a <=? b) with true by (symmetry; apply Z.leb_le; dm_lia)
                   | replace (a <=? b) with false by (symmetry; apply Z.leb_gt; dm_lia) ]
         | |- context [?a <? ?b] =>
             first [ replace (a <? b) with true by (symmetry; apply Z.ltb_lt; dm_lia)
                   | replace (a <? b) with false by (symmetry; apply Z.ltb_ge; dm_lia) ]
         | |- context [?a =? ?b] =>
             first [ replace (a =? b) with true by (symmetry; apply Z.eqb_eq; dm_lia)
                   | replace (a =? b) with false by (symmetry; apply Z.eqb_neq; dm_lia) ]
         end; cbn [andb orb negb].

Section StringFacts.

Lemma append_cons c s t : String c s +:+ t = String c (s +:+ t).
Proof. reflexivity. Qed.

Lemma append_empty_l t : "" +:+ t = t.
Proof. reflexivity. Qed.

Lemma append_empty_r s : s +:+ "" = s.
Proof. induction s as [|c s IH]; [reflexivity|]. rewrite append_cons, IH. reflexivity. Qed.

Lemma append_assoc s t u : (s +:+ t) +:+ u = s +:+ t +:+ u.
Proof.
  induction s as [|c s IH]; [reflexivity|]. rewrite !append_cons, IH. reflexivity.
Qed.

Lemma append_nonempty s t : s <> "" -> s +:+ t <> "".
Proof. destruct s; [congruence | rewrite append_cons; discriminate]. Qed.

Lemma HasPrefix_append p t : HasPrefix (p +:+ t) p = true.
Proof.
  induction p as [|c p IH]; [reflexivity|].
  rewrite append_cons. simpl. rewrite Ascii.eqb_refl, IH. reflexivity.
Qed.

Lemma Contains_of_prefix s m : HasPrefix s m = true -> Contains s m = true.
Proof. intros H. destruct s; cbn [Contains]; rewrite H; reflexivity. Qed.

Lemma Contains_append_r pre s m : Contains s m = true -> Contains (pre +:+ s) m = true.
Proof.
  intros H. induction pre as [|c pre IH]; [exact H|].
  rewrite append_cons. cbn [Contains]. rewrite IH. apply orb_true_r.
Qed.

Lemma Contains_append pre m post : Contains (pre +:+ m +:+ post) m = true.
Proof. apply Contains_append_r, Contains_of_prefix, HasPrefix_append. Qed.

Lemma byteZ_range c : 0 <= byteZ c < 256.
Proof. unfold byteZ. pose proof (N_ascii_bounded c). lia. Qed.

Lemma zbyte_byteZ c : zbyte (byteZ c) = c.
Proof. unfold zbyte, byteZ. rewrite N2Z.id. apply ascii_N_embedding. Qed.

Lemma length_skip n s : String.length (skip n s) = (String.length s - n)%nat.
Proof.
  revert s. induction n as [|n IH]; intros [|c s]; cbn [skip String.length]; try lia.
  apply IH.
Qed.

Lemma skip_append n s t :
  (n <= String.length s)%nat -> skip n (s +:+ t) = skip n s +:+ t.
Proof.
  revert s. induction n as [|n IH]; intros [|c s] H; cbn [String.length] in H;
    try reflexivity; try lia.
  rewrite append_cons. cbn [skip]. apply IH. lia.
Qed.

Lemma first_lead b sz lo hi :
  first b = fbLead sz lo hi -> 128 <= lo /\ hi <= 191 /\ 194 <= b.
Proof.
  unfold first.
  repeat match goal with
         | |- context [if ?c then _ else _] => destruct c eqn:?
         end; intros [= <- <- <-] || discriminate; lia.
Qed.

(** A rune takes at least one byte and no more than the string has. *)
Lemma DecodeRuneInString_width s :
  s <> "" ->
  (1 <= snd (DecodeRuneInString s) <= String.length s)%nat.
Proof.
  intros Hne. destruct s as [|c0 [|c1 [|c2 [|c3 s4]]]]; [congruence|..];
    unfold DecodeRuneInString; destruct (first (byteZ c0)); break_if;
    cbn [snd String.length]; lia.
Qed.

(** What follows a rune that is there does not change it. *)
Lemma DecodeRuneInString_append s t r w :
  DecodeRuneInString s = (r, w) -> (r, w) <> (RuneError, 1%nat) -> s <> "" ->
  DecodeRuneInString (s +:+ t) = (r, w).
Proof.
  intros Hd Hne Hs. rewrite <- Hd in *. clear Hd.
  destruct s as [|c0 [|c1 [|c2 [|c3 s4]]]]; [congruence|..];
    rewrite ?append_cons, ?append_empty_l;
    unfold DecodeRuneInString in *; destruct (first (byteZ c0)); try reflexivity;
    try congruence;
    destruct t as [|x0 [|x1 [|x2 t]]]; break_if; try reflexivity; try congruence.
Qed.

(** A rune does not reach into what starts a rune itself. *)
Lemma DecodeRuneInString_before pre s :
  pre <> "" -> startsRune s = true ->
  (snd (DecodeRuneInString (pre +:+ s)) <= String.length pre)%nat.
Proof.
  intros Hpre Hs.
  destruct s as [|x s].
  { rewrite append_empty_r. apply DecodeRuneInString_width, Hpre. }
  cbn [startsRune] in Hs.
  assert (isCont (byteZ x) = false) as Hx
    by (unfold RuneStart in Hs; apply negb_true_iff, Hs).
  assert (forall lo hi, 128 <= lo -> hi <= 191 ->
            (lo <=? byteZ x) && (byteZ x <=? hi) = false) as Hacc.
  { intros lo hi Hlo Hhi. unfold isCont in Hx.
    apply andb_false_iff in Hx. apply andb_false_iff.
    destruct Hx as [Hb|Hb]; [left|right]; lia. }
  destruct pre as [|c0 [|c1 [|c2 [|c3 p4]]]]; [congruence|..];
    rewrite ?append_cons, ?append_empty_l;
    unfold DecodeRuneInString;
    destruct (first (byteZ c0)) as [| |sz lo hi] eqn:Hf; cbn [snd String.length]; try lia;
    apply first_lead in Hf as (Hlo & Hhi & _);
    rewrite ?Hx, ?(Hacc lo hi Hlo Hhi); break_if; cbn [snd negb]; lia.
Qed.

Lemma MapFrom_fuel mapping n m s :
  (String.length s <= n)%nat -> (String.length s <= m)%nat ->
  MapFrom n mapping s = MapFrom m mapping s.
Proof.
  revert m s. induction n as [|n IH]; intros [|m] [|c s] Hn Hm;
    cbn [String.length] in *; try reflexivity; try lia.
  cbn [MapFrom].
  pose proof (DecodeRuneInString_width (String c s)) as Hw.
  destruct (DecodeRuneInString (String c s)) as [r w]. cbn [snd] in Hw.
  f_equal. apply IH; rewrite length_skip; cbn [String.length];
    (assert (String c s <> "") as Hne by discriminate; specialize (Hw Hne); lia).
Qed.

Lemma Map_cons mapping c s :
  Map mapping (String c s) =
    WriteRune (mapping (fst (DecodeRuneInString (String c s))))
      (Map mapping (skip (snd (DecodeRuneInString (String c s))) (String c s))).
Proof.
  unfold Map at 1. cbn [String.length MapFrom].
  pose proof (DecodeRuneInString_width (String c s)) as Hw.
  destruct (DecodeRuneInString (String c s)) as [r w]. cbn [fst snd] in *.
  f_equal. unfold Map. apply MapFrom_fuel; rewrite ?length_skip; cbn [String.length];
    (assert (String c s <> "") as Hne by discriminate; specialize (Hw Hne); lia).
Qed.

Lemma isASCII_append s t : isASCII (s +:+ t) = isASCII s && isASCII t.
Proof.
  induction s as [|c s IH]; [reflexivity|].
  rewrite append_cons. cbn [isASCII]. rewrite IH. apply andb_assoc.
Qed.

Lemma WriteRune_append r s t : WriteRune r (s +:+ t) = WriteRune r s +:+ t.
Proof. unfold WriteRune. destruct (r <? 0); [reflexivity|]. symmetry. apply append_assoc. Qed.

Lemma isASCII_WriteRune r s : isASCII (WriteRune r s) = true -> isASCII s = true.
Proof.
  unfold WriteRune. destruct (r <? 0); [tauto|].
  rewrite isASCII_append. intros H. apply andb_true_iff in H. tauto.
Qed.

Lemma WriteRune_RuneError s : isASCII (WriteRune RuneError s) = false.
Proof. reflexivity. Qed.

(** A string that [Map] turns into ASCII bytes has no invalid byte, so that
    what follows it is mapped on its own. *)
Lemma Map_append_ascii mapping n piece post :
  mapping RuneError = RuneError ->
  (String.length piece <= n)%nat ->
  isASCII (Map mapping piece) = true ->
  Map mapping (piece +:+ post) = Map mapping piece +:+ Map mapping post.
Proof.
  intros Hre. revert piece. induction n as [|n IH]; intros [|c p] Hlen Hascii;
    cbn [String.length] in Hlen; try reflexivity; try lia.
  rewrite append_cons, Map_cons, <- append_cons.
  rewrite Map_cons in Hascii |- *.
  pose proof (DecodeRuneInString_width (String c p)) as Hw.
  destruct (DecodeRuneInString (String c p)) as [r w] eqn:Hd. cbn [fst snd] in *.
  assert (String c p <> "") as Hne by discriminate. specialize (Hw Hne).
  cbn [String.length] in Hw.
  destruct (decide ((r, w) = (RuneError, 1%nat))) as [[= -> ->]|Hvalid].
  { rewrite Hre, WriteRune_RuneError in Hascii. discriminate. }
  rewrite (DecodeRuneInString_append _ post r w Hd Hvalid Hne). cbn [fst snd].
  rewrite skip_append by (cbn [String.length]; lia).
  rewrite IH.
  - apply WriteRune_append.
  - rewrite length_skip. cbn [String.length]. lia.
  - apply (isASCII_WriteRune _ _ Hascii).
Qed.

Lemma Map_ascii_startsRune mapping piece :
  mapping RuneError = RuneError ->
  isASCII (Map mapping piece) = true -> startsRune piece = true.
Proof.
  intros Hre Hascii. destruct piece as [|c p]; [reflexivity|].
  cbn [startsRune]. unfold RuneStart. destruct (isCont (byteZ c)) eqn:Hc; [|reflexivity].
  rewrite Map_cons in Hascii.
  assert (DecodeRuneInString (String c p) = (RuneError, 1%nat)) as Hd.
  { unfold isCont in Hc. apply andb_true_iff in Hc as [H1 H2].
    unfold DecodeRuneInString, first.
    replace (byteZ c <? 128) with false by (symmetry; apply Z.ltb_ge; lia).
    replace (byteZ c <? 194) with true by (symmetry; apply Z.ltb_lt; lia).
    reflexivity. }
  rewrite Hd in Hascii. cbn [fst snd] in Hascii.
  rewrite Hre, WriteRune_RuneError in Hascii. discriminate.
Qed.

(** What [Map] makes of a string is found in what it makes of a longer one,
    when the string starts at the start of a rune. *)
Lemma Contains_Map_before mapping m n pre s :
  (String.length pre <= n)%nat -> startsRune s = true ->
  Contains (Map mapping s) m = true ->
  Contains (Map mapping (pre +:+ s)) m = true.
Proof.
  intros Hlen Hs Hc. revert pre Hlen.
  induction n as [|n IH]; intros [|c p] Hlen; cbn [String.length] in Hlen;
    try exact Hc; try lia.
  rewrite append_cons, Map_cons, <- append_cons.
  assert (String c p <> "") as Hne by discriminate.
  pose proof (DecodeRuneInString_before (String c p) s Hne Hs) as Hb.
  pose proof (DecodeRuneInString_width (String c p +:+ s)) as Hw.
  destruct (DecodeRuneInString (String c p +:+ s)) as [r w]. cbn [fst snd] in *.
  specialize (Hw ltac:(rewrite append_cons; discriminate)).
  rewrite skip_append by lia.
  assert (Contains (Map mapping (skip w (String c p) +:+ s)) m = true) as Hrest.
  { apply IH. rewrite length_skip. cbn [String.length] in *. lia. }
  unfold WriteRune. destruct (mapping r <? 0); [exact Hrest|].
  apply Contains_append_r, Hrest.
Qed.

Lemma unicodeToLower_RuneError table : unicodeToLower table RuneError = RuneError.
Proof. reflexivity. Qed.

Lemma Map_lowerASCII table s :
  isASCII s = true -> Map (unicodeToLower table) s = lowerASCII s.
Proof.
  induction s as [|c s IH]; [reflexivity|].
  cbn [isASCII]. intros H. apply andb_true_iff in H as [Hc Hs].
  apply Z.ltb_lt in Hc. unfold RuneSelf in Hc. pose proof (byteZ_range c) as Hr.
  rewrite Map_cons.
  assert (DecodeRuneInString (String c s) = (byteZ c, 1%nat)) as ->.
  { unfold DecodeRuneInString, first.
    replace (byteZ c <? 128) with true by (symmetry; apply Z.ltb_lt; lia). reflexivity. }
  cbn [fst snd skip lowerASCII]. rewrite (IH Hs).
  unfold unicodeToLower, WriteRune, EncodeRune.
  replace (byteZ c <=? 127) with true by (symmetry; apply Z.leb_le; lia).
  destruct ((65 <=? byteZ c) && (byteZ c <=? 90)) eqn:Hup.
  - apply andb_true_iff in Hup as [H1 H2]. apply Z.leb_le in H1, H2.
    replace (byteZ c + 32 <? 0) with false by (symmetry; apply Z.ltb_ge; lia).
    replace ((0 <=? byteZ c + 32) && (byteZ c + 32 <=? 127)) with true
      by (symmetry; apply andb_true_iff; split; apply Z.leb_le; lia).
    reflexivity.
  - replace (byteZ c <? 0) with false by (symmetry; apply Z.ltb_ge; lia).
    replace ((0 <=? byteZ c) && (byteZ c <=? 127)) with true
      by (symmetry; apply andb_true_iff; split; apply Z.leb_le; lia).
    rewrite zbyte_byteZ. reflexivity.
Qed.

(** The short cut that [strings.ToLower] takes for ASCII strings gives what
    [strings.Map] gives. *)
Lemma ToLowerBy_Map table s :
  ToLowerBy (unicodeToLower table) s = Map (unicodeToLower table) s.
Proof.
  unfold ToLowerBy. destruct (isASCII s) eqn:H; [|reflexivity].
  symmetry. apply Map_lowerASCII, H.
Qed.

(** A piece that lowercases to ASCII bytes is found, lowercased, in the
    lowercased whole. *)
Lemma ToLowerBy_piece table pre piece post m :
  ToLowerBy (unicodeToLower table) piece = m -> isASCII m = true -> m <> "" ->
  Contains (ToLowerBy (unicodeToLower table) (pre +:+ piece +:+ post)) m = true.
Proof.
  rewrite !ToLowerBy_Map. intros Hm Hascii Hne. rewrite <- Hm in Hascii.
  pose proof (unicodeToLower_RuneError table) as Hre.
  apply (Contains_Map_before _ m (String.length pre)); [lia | |].
  - assert (piece <> "") as Hp by (intros ->; apply Hne; rewrite <- Hm; reflexivity).
    destruct piece as [|c p]; [congruence|]. rewrite append_cons.
    apply (Map_ascii_startsRune _ _ Hre Hascii).
  - rewrite (Map_append_ascii _ (String.length piece) piece post Hre (le_n _) Hascii).
    rewrite Hm. apply Contains_of_prefix, HasPrefix_append.
Qed.

Lemma byteZ_zbyte z : 0 <= z < 256 -> byteZ (zbyte z) = z.
Proof.
  intros H. unfold byteZ, zbyte. rewrite N_ascii_embedding by lia. lia.
Qed.

(** Decoding what [EncodeRune] wrote gives the rune back, whatever follows. *)
Lemma DecodeRuneInString_EncodeRune r t :
  validRune r = true ->
  DecodeRuneInString (EncodeRune r +:+ t) = (r, String.length (EncodeRune r)) /\
  (1 <= String.length (EncodeRune r))%nat.
Proof.
  intros Hv.
  assert (0 <= r <= 1114111 /\ (r < 55296 \/ 57343 < r)) as Hr
    by (unfold validRune, MaxRune in Hv; solve_bool; lia).
  clear Hv.
  assert (r <= 127 \/ 128 <= r <= 2047 \/ 2048 <= r <= 65535 \/ 65536 <= r) as Hcase by lia.
  unfold EncodeRune, MaxRune.
  destruct Hr as [Hr [Hs|Hs]];
    (destruct Hcase as [Hc|[Hc|[Hc|Hc]]]; try lia); bool_lia;
    unfold bytes2, bytes3, bytes4; rewrite !append_cons, append_empty_l;
    (split; [|cbn [String.length]; lia]);
    unfold DecodeRuneInString, first, isCont;
    rewrite !byteZ_zbyte by dm_lia;
    repeat first
      [ progress bool_lia
      | progress cbn [Nat.leb negb andb String.length]
      | match goal with
        | |- context [if (?a =? ?b) then _ else _] => destruct (a =? b) eqn:?
        | |- context [if (?a <? ?b) then _ else _] => destruct (a <? b) eqn:?
        | |- context [if (?a <=? ?b) then _ else _] => destruct (a <=? b) eqn:?
        end ];
    solve_bool;
    try (f_equal; dm_lia); try (exfalso; dm_lia).
Qed.

Lemma skip_all s : skip (String.length s) s = "".
Proof. induction s as [|c s IH]; [reflexivity | exact IH]. Qed.

Lemma EncodeRune_invalid r : 0 <= r -> validRune r = false -> EncodeRune r = EncodeRune RuneError.
Proof.
  intros Hr Hv. unfold validRune, MaxRune in Hv. unfold EncodeRune at 1, MaxRune.
  solve_bool; try lia; bool_lia; reflexivity.
Qed.

Lemma DecodeRuneInString_EncodeRune_any r t :
  0 <= r ->
  DecodeRuneInString (EncodeRune r +:+ t) = (decoded r, String.length (EncodeRune r)) /\
  (1 <= String.length (EncodeRune r))%nat.
Proof.
  intros Hr. unfold decoded. destruct (validRune r) eqn:Hv.
  - apply DecodeRuneInString_EncodeRune, Hv.
  - rewrite (EncodeRune_invalid r Hr Hv). apply DecodeRuneInString_EncodeRune. reflexivity.
Qed.

Lemma Map_EncodeRune mapping r t :
  0 <= r ->
  Map mapping (EncodeRune r +:+ t) = WriteRune (mapping (decoded r)) (Map mapping t).
Proof.
  intros Hr. destruct (DecodeRuneInString_EncodeRune_any r t Hr) as [Hd Hlen].
  destruct (EncodeRune r +:+ t) as [|c s] eqn:E.
  { destruct (EncodeRune r); [cbn in Hlen; lia | discriminate]. }
  rewrite Map_cons, Hd. cbn [fst snd]. rewrite <- E.
  rewrite skip_append by lia. rewrite skip_all. reflexivity.
Qed.

Lemma Map_fixed mapping n s :
  mapping RuneError = RuneError ->
  (forall r, mapping (mapping r) = mapping r) ->
  (String.length s <= n)%nat ->
  Map mapping (Map mapping s) = Map mapping s.
Proof.
  intros Hre Hfix. revert s. induction n as [|n IH]; intros [|c s] Hlen;
    cbn [String.length] in Hlen; try reflexivity; try lia.
  rewrite Map_cons.
  pose proof (DecodeRuneInString_width (String c s)) as Hw.
  destruct (DecodeRuneInString (String c s)) as [r w]. cbn [fst snd] in *.
  specialize (Hw ltac:(discriminate)). cbn [String.length] in Hw.
  assert (Map mapping (Map mapping (skip w (String c s))) = Map mapping (skip w (String c s)))
    as Hrest by (apply IH; rewrite length_skip; cbn [String.length]; lia).
  unfold WriteRune. destruct (mapping r <? 0) eqn:Hneg; [exact Hrest|].
  apply Z.ltb_ge in Hneg.
  rewrite (Map_EncodeRune _ _ _ Hneg), Hrest.
  unfold decoded, WriteRune. destruct (validRune (mapping r)) eqn:Hv.
  - rewrite Hfix. replace (mapping r <? 0) with false by (symmetry; apply Z.ltb_ge; lia).
    reflexivity.
  - rewrite Hre. rewrite (EncodeRune_invalid _ Hneg Hv). reflexivity.
Qed.

Lemma ToLowerBy_fixed table s :
  lowerFixed table ->
  ToLowerBy (unicodeToLower table) (ToLowerBy (unicodeToLower table) s)
  = ToLowerBy (unicodeToLower table) s.
Proof.
  intros Hfix. rewrite !ToLowerBy_Map.
  apply (Map_fixed _ (String.length s)); [reflexivity | exact Hfix | lia].
Qed.

Lemma caseExcerpt_fixed : lowerFixed Fixture.caseExcerpt.
Proof.
  intros r. unfold unicodeToLower, Fixture.caseExcerpt, RuneError.
  break_if; solve_bool; lia.
Qed.

Lemma SplitN2_afterFirstColon s :
  SplitN2 s ":" =
    match afterFirstColon s with
    | Some value => [hd "" (SplitN2 s ":"); value]
    | None => [s]
    end.
Proof.
  induction s as [|c s IH]; [reflexivity|].
  cbn [SplitN2 afterFirstColon]. destruct (Ascii.eqb c ":"); [reflexivity|].
  rewrite IH. destruct (afterFirstColon s); reflexivity.
Qed.

Lemma not_colon c : byteZ c <> 58 -> Ascii.eqb c ":" = false.
Proof.
  intros H. destruct (Ascii.eqb c ":") eqn:E; [|reflexivity].
  apply Ascii.eqb_eq in E. subst c. exfalso. apply H. reflexivity.
Qed.

Lemma noColon_append s t : noColon (s +:+ t) = noColon s && noColon t.
Proof.
  induction s as [|c s IH]; [reflexivity|].
  rewrite append_cons. cbn [noColon]. rewrite IH. apply andb_assoc.
Qed.

Lemma noColon_take_skip n s : noColon s = noColon (take n s) && noColon (skip n s).
Proof.
  revert s. induction n as [|n IH]; intros [|c s]; try reflexivity.
  cbn [take skip noColon]. rewrite (IH s). apply andb_assoc.
Qed.

Lemma noColon_WriteRune r s : noColon (WriteRune r s) = true -> noColon s = true.
Proof.
  unfold WriteRune. destruct (r <? 0); [tauto|].
  rewrite noColon_append. intros H. apply andb_true_iff in H. tauto.
Qed.

(** A rune is one ASCII byte, or its bytes are all above ASCII. *)
Lemma DecodeRuneInString_noColon c0 s r w :
  DecodeRuneInString (String c0 s) = (r, w) -> (r, w) <> (RuneError, 1%nat) ->
  (w = 1%nat /\ r = byteZ c0 /\ byteZ c0 < 128) \/
  noColon (take w (String c0 s)) = true.
Proof.
  intros Hd Hne.
  unfold DecodeRuneInString in Hd.
  destruct (first (byteZ c0)) as [| |sz lo hi] eqn:Hf.
  - left. injection Hd as <- <-. unfold first in Hf.
    destruct (byteZ c0 <? 128) eqn:E; [|revert Hf; break_if; discriminate].
    apply Z.ltb_lt in E. repeat split. exact E.
  - congruence.
  - right. apply first_lead in Hf as (Hlo & Hhi & Hb0).
    destruct s as [|c1 s]; [congruence|].
    destruct (negb ((lo <=? byteZ c1) && (byteZ c1 <=? hi))) eqn:H1; [congruence|].
    solve_bool.
    assert (Ascii.eqb c0 ":" = false) as E0 by (apply not_colon; lia).
    assert (Ascii.eqb c1 ":" = false) as E1 by (apply not_colon; lia).
    destruct (sz <=? 2)%nat;
      [injection Hd as <- <-; cbn [take noColon]; rewrite E0, E1; reflexivity|].
    destruct s as [|c2 s]; [congruence|].
    destruct (negb (isCont (byteZ c2))) eqn:H2; [congruence|].
    unfold isCont in H2. solve_bool.
    assert (Ascii.eqb c2 ":" = false) as E2 by (apply not_colon; lia).
    destruct (sz <=? 3)%nat;
      [injection Hd as <- <-; cbn [take noColon]; rewrite E0, E1, E2; reflexivity|].
    destruct s as [|c3 s]; [congruence|].
    destruct (negb (isCont (byteZ c3))) eqn:H3; [congruence|].
    unfold isCont in H3. solve_bool.
    assert (Ascii.eqb c3 ":" = false) as E3 by (apply not_colon; lia).
    injection Hd as <- <-. cbn [take noColon]. rewrite E0, E1, E2, E3. reflexivity.
Qed.

(** A string that lowercases to ASCII bytes without a colon has no colon. *)
Lemma Map_noColon table n s :
  (String.length s <= n)%nat ->
  isASCII (Map (unicodeToLower table) s) = true ->
  noColon (Map (unicodeToLower table) s) = true ->
  noColon s = true.
Proof.
  revert s. induction n as [|n IH]; intros [|c0 s] Hlen Hascii Hno;
    cbn [String.length] in Hlen; try reflexivity; try lia.
  rewrite Map_cons in Hascii, Hno.
  pose proof (DecodeRuneInString_width (String c0 s) ltac:(discriminate)) as Hw.
  destruct (DecodeRuneInString (String c0 s)) as [r w] eqn:Hd. cbn [fst snd] in *.
  cbn [String.length] in Hw.
  destruct (decide ((r, w) = (RuneError, 1%nat))) as [[= -> ->]|Hvalid].
  { rewrite unicodeToLower_RuneError, WriteRune_RuneError in Hascii. discriminate. }
  assert (noColon (skip w (String c0 s)) = true) as Hrest.
  { apply IH.
    - rewrite length_skip. cbn [String.length]. lia.
    - apply (isASCII_WriteRune _ _ Hascii).
    - apply (noColon_WriteRune _ _ Hno). }
  rewrite (noColon_take_skip w), Hrest, andb_true_r.
  destruct (DecodeRuneInString_noColon c0 s r w Hd Hvalid) as [(-> & -> & Hlt)|Htake];
    [|exact Htake].
  cbn [take noColon]. rewrite andb_true_r. apply negb_true_iff.
  destruct (Ascii.eqb c0 ":") eqn:E; [|reflexivity].
  apply Ascii.eqb_eq in E. subst c0. discriminate Hno.
Qed.

Lemma afterFirstColon_label label value :
  noColon label = true -> afterFirstColon (label +:+ ":" +:+ value) = Some value.
Proof.
  induction label as [|c label IH]; [reflexivity|].
  cbn [noColon]. intros H. apply andb_true_iff in H as [Hc Hl].
  apply negb_true_iff in Hc. rewrite append_cons. cbn [afterFirstColon].
  rewrite Hc. apply (IH Hl).
Qed.

(** A line made of a label that lowercases to the ASCII string [m] without
    a colon, a colon and a value: lowercased it starts with [m] and a colon,
    and its first colon is the one after the label. *)
Lemma ToLowerBy_label table label value m :
  ToLowerBy (unicodeToLower table) label = m ->
  isASCII m = true -> noColon m = true ->
  HasPrefix (ToLowerBy (unicodeToLower table) (label +:+ ":" +:+ value)) (m +:+ ":") = true /\
  afterFirstColon (label +:+ ":" +:+ value) = Some value.
Proof.
  rewrite !ToLowerBy_Map. intros <- Hascii Hno. split.
  - rewrite (Map_append_ascii _ (String.length label) label _
               (unicodeToLower_RuneError table) (le_n _) Hascii).
    change (":" +:+ value) with (String ":" value). rewrite Map_cons.
    change (DecodeRuneInString (String ":" value)) with (58, 1%nat).
    cbn [fst snd skip]. change (unicodeToLower table 58) with 58.
    change (WriteRune 58 (Map (unicodeToLower table) value))
      with (":" +:+ Map (unicodeToLower table) value).
    rewrite <- append_assoc. apply HasPrefix_append.
  - apply afterFirstColon_label, (Map_noColon table (String.length label)); auto.
Qed.

Lemma anyMarker_member markers lower m :
  In m markers -> Contains lower m = true -> anyMarker markers lower = true.
Proof.
  intros Hin Hc. unfold anyMarker. apply existsb_exists. eauto.
Qed.

Lemma notRegisteredMarkers_ascii marker :
  In marker notRegisteredMarkers -> isASCII marker = true /\ marker <> "".
Proof.
  intros H. cbn in H.
  repeat (destruct H as [<-|H]; [split; [reflexivity | discriminate]|]).
  contradiction.
Qed.

End StringFacts.

(* ===================================================================== *)
(** ** whois.go: classification of a response body *)
(* ===================================================================== *)

Section Whois.

Variable env : Env.

Lemma expiryOfFields_keeps fields body r :
  Domain (expiryOfFields env fields body r) = Domain r /\
  Status (expiryOfFields env fields body r) = Status r /\
  Registrar (expiryOfFields env fields body r) = Registrar r /\
  Source (expiryOfFields env fields body r) = Source r /\
  Err (expiryOfFields env fields body r) = Err r.
Proof.
  induction fields as [|f fields IH]; cbn [expiryOfFields]; [tauto|].
  destruct (negb _); [cbn; tauto | exact IH].
Qed.

Lemma parseWHOIS_Domain domain body : Domain (parseWHOIS env domain body) = domain.
Proof.
  unfold parseWHOIS.
  destruct (anyMarker notRegisteredMarkers _); [reflexivity|].
  destruct (anyMarker registeredMarkers _); [|reflexivity].
  destruct (expiryOfFields_keeps expiryFields body
    (setRegistrar (newResult domain StatusRegistered) (whoisField env body "Registrar")))
    as (-> & _). reflexivity.
Qed.

Lemma parseWHOIS_Status domain body :
  Status (parseWHOIS env domain body) =
    if anyMarker notRegisteredMarkers (ToLower env body) then StatusAvailable
    else if anyMarker registeredMarkers (ToLower env body) then StatusRegistered
    else StatusUnknown.
Proof.
  unfold parseWHOIS.
  destruct (anyMarker notRegisteredMarkers _); [reflexivity|].
  destruct (anyMarker registeredMarkers _); [|reflexivity].
  destruct (expiryOfFields_keeps expiryFields body
    (setRegistrar (newResult domain StatusRegistered) (whoisField env body "Registrar")))
    as (_ & -> & _). reflexivity.
Qed.

Lemma parseWHOIS_Source_Err domain body :
  Source (parseWHOIS env domain body) = "" /\ Err (parseWHOIS env domain body) = "".
Proof.
  unfold parseWHOIS.
  destruct (anyMarker notRegisteredMarkers _); [split; reflexivity|].
  destruct (anyMarker registeredMarkers _); [|split; reflexivity].
  destruct (expiryOfFields_keeps expiryFields body
    (setRegistrar (newResult domain StatusRegistered) (whoisField env body "Registrar")))
    as (_ & _ & _ & -> & ->). split; reflexivity.
Qed.

(** [C7] Classification works on the lowercased body and looks for the
    not-registered markers first: a body in which some piece, in any letter
    case, spells one of these markers is classified Available, with neither
    registrar nor expiry, whatever else the body contains. *)
Theorem parseWHOIS_not_registered_first domain body pre piece post marker :
  In marker notRegisteredMarkers ->
  body = pre +:+ piece +:+ post ->
  ToLower env piece = marker ->
  parseWHOIS env domain body = newResult domain StatusAvailable /\
  Status (parseWHOIS env domain body) = StatusAvailable /\
  Registrar (parseWHOIS env domain body) = "" /\
  Expiry (parseWHOIS env domain body) = None.
Proof.
  intros Hin -> Hlow.
  assert (parseWHOIS env domain (pre +:+ piece +:+ post)
          = newResult domain StatusAvailable) as ->; [|repeat split].
  unfold parseWHOIS.
  rewrite (anyMarker_member notRegisteredMarkers _ marker Hin); [reflexivity|].
  destruct (notRegisteredMarkers_ascii marker Hin) as [Hascii Hne].
  apply (ToLowerBy_piece (caseTable env) pre piece post marker Hlow Hascii Hne).
Qed.

End Whois.

Lemma parseWHOIS_not_registered_first_witness :
  Status (parseWHOIS Fixture.offline "domain.com" Fixture.noMatchBody) = StatusAvailable /\
  Registrar (parseWHOIS Fixture.offline "domain.com" Fixture.noMatchBody) = "" /\
  Expiry (parseWHOIS Fixture.offline "domain.com" Fixture.noMatchBody) = None /\
  anyMarker registeredMarkers (ToLower Fixture.offline Fixture.noMatchBody) = true.
Proof.
  pose proof (parseWHOIS_not_registered_first Fixture.offline
    "domain.com" Fixture.noMatchBody "" "No match for"
    (Fixture.text [ " DOMAIN.COM"; "Registrar: none"; "" ]) "no match for") as H.
  destruct H as (_ & Hs & Hr & He).
  - simpl. tauto.
  - reflexivity.
  - reflexivity.
  - exact (conj Hs (conj Hr (conj He eq_refl))).
Defined.

(* ===================================================================== *)
(** ** whois.go: the registrar field *)
(* ===================================================================== *)

Section WhoisFields.

Variable env : Env.

Lemma find_skip {A} (f : A -> bool) before rest :
  Forall (fun x => f x = false) before -> find f (before ++ rest) = find f rest.
Proof.
  induction 1 as [|x before Hx _ IH]; [reflexivity|].
  cbn [app find]. rewrite Hx. exact IH.
Qed.

Lemma whoisFieldLines_find lowerField lines :
  whoisFieldLines env lines lowerField =
    match find (lineGivesField env lowerField) lines with
    | Some line => TrimSpace (default "" (afterFirstColon (TrimSpace line)))
    | None => ""
    end.
Proof.
  induction lines as [|line lines IH]; [reflexivity|].
  cbn [whoisFieldLines find]. unfold lineGivesField at 1, lineHasField.
  destruct (HasPrefix (ToLower env (TrimSpace line)) lowerField); [|exact IH].
  rewrite SplitN2_afterFirstColon. cbn [andb].
  destruct (afterFirstColon (TrimSpace line)) as [value|] eqn:E.
  - rewrite bool_decide_eq_true_2 by eauto. rewrite E. reflexivity.
  - rewrite bool_decide_eq_false_2 by (intros [x Hx]; discriminate). exact IH.
Qed.

Lemma ToLower_ascii s : isASCII s = true -> ToLower env s = lowerASCII s.
Proof. intros H. unfold ToLower, ToLowerBy. rewrite H. reflexivity. Qed.

Lemma whoisField_Registrar body before line after value :
  Split body LF = before ++ line :: after ->
  Forall (fun x => lineGivesField env "registrar:" x = false) before ->
  lineHasField env "registrar:" line = true ->
  afterFirstColon (TrimSpace line) = Some value ->
  whoisField env body "Registrar" = TrimSpace value.
Proof.
  intros Hsplit Hbefore Hline Hvalue.
  unfold whoisField. rewrite Hsplit, (ToLower_ascii "Registrar" eq_refl).
  change (lowerASCII "Registrar" +:+ ":") with "registrar:".
  rewrite whoisFieldLines_find, (find_skip _ before _ Hbefore).
  cbn [find]. unfold lineGivesField at 1. rewrite Hline, Hvalue.
  rewrite bool_decide_eq_true_2 by eauto. cbn [andb]. rewrite Hvalue. reflexivity.
Qed.

(** [C8] A body without a not-registered marker and with a registered
    marker is classified Registered.  Its registrar is taken from the first
    line in which [whoisField] finds the label, that is the first line that,
    trimmed and lowercased, starts with "registrar:" and, trimmed, has a
    colon: it is what follows the first colon of that line, trimmed.  Such
    is a line that, trimmed, is a label that lowercases to "registrar", a
    colon and a value; when the line, trimmed, is "Registrar: Example Inc.",
    the registrar is "Example Inc.". *)
Theorem parseWHOIS_registrar_first_line domain body before line after :
  anyMarker notRegisteredMarkers (ToLower env body) = false ->
  anyMarker registeredMarkers (ToLower env body) = true ->
  Split body LF = before ++ line :: after ->
  Forall (fun x => lineGivesField env "registrar:" x = false) before ->
  Status (parseWHOIS env domain body) = StatusRegistered /\
  (forall value,
     lineHasField env "registrar:" line = true ->
     afterFirstColon (TrimSpace line) = Some value ->
     Registrar (parseWHOIS env domain body) = TrimSpace value) /\
  (forall label value,
     TrimSpace line = label +:+ ":" +:+ value ->
     ToLower env label = "registrar" ->
     Registrar (parseWHOIS env domain body) = TrimSpace value) /\
  (TrimSpace line = "Registrar: Example Inc." ->
   Registrar (parseWHOIS env domain body) = "Example Inc.").
Proof.
  intros Hnot Hreg Hsplit Hbefore.
  assert (Registrar (parseWHOIS env domain body) = whoisField env body "Registrar")
    as Hregistrar.
  { unfold parseWHOIS. rewrite Hnot, Hreg.
    destruct (expiryOfFields_keeps env expiryFields body
      (setRegistrar (newResult domain StatusRegistered) (whoisField env body "Registrar")))
      as (_ & _ & -> & _).
    reflexivity. }
  assert (forall label value,
            TrimSpace line = label +:+ ":" +:+ value ->
            ToLower env label = "registrar" ->
            whoisField env body "Registrar" = TrimSpace value) as Hlabel.
  { intros label value Htrim Hlow.
    destruct (ToLowerBy_label (caseTable env) label value "registrar" Hlow eq_refl eq_refl)
      as [Hpre Hcolon].
    apply (whoisField_Registrar body before line after value Hsplit Hbefore).
    - unfold lineHasField. rewrite Htrim. exact Hpre.
    - rewrite Htrim. exact Hcolon. }
  split; [rewrite parseWHOIS_Status, Hnot, Hreg; reflexivity|].
  rewrite Hregistrar. split; [|split].
  - intros value. apply (whoisField_Registrar body before line after value Hsplit Hbefore).
  - exact Hlabel.
  - intros Htrim. apply (Hlabel "Registrar" " Example Inc." Htrim). reflexivity.
Qed.

End WhoisFields.

Lemma parseWHOIS_registrar_first_line_witness :
  Status (parseWHOIS Fixture.offline "example.com" Fixture.registeredBody) = StatusRegistered /\
  Registrar (parseWHOIS Fixture.offline "example.com" Fixture.registeredBody) = "Example Inc.".
Proof.
  destruct (parseWHOIS_registrar_first_line Fixture.offline
    "example.com" Fixture.registeredBody
    [ "   Domain Name: EXAMPLE.COM"; "   Registrar WHOIS Server: whois.example.net" ]
    (Fixture.NBSP +:+ "  Registrar: Example Inc." +:+ Fixture.IDSP)
    [ "   REGİSTRAR: Another Name"; "" ]) as (Hs & _ & _ & Hr).
  - reflexivity.
  - reflexivity.
  - reflexivity.
  - repeat constructor.
  - exact (conj Hs (Hr eq_refl)).
Defined.

(* ===================================================================== *)
(** ** whois.go: the server of a domain *)
(* ===================================================================== *)

Section WhoisServer.

Lemma whoisServers_keys_no_dot k srv :
  whoisServers !! k = Some srv -> Contains k "." = false.
Proof.
  intros H. unfold whoisServers in H.
  apply elem_of_list_to_map_2 in H.
  repeat (apply elem_of_cons in H as [H|H]; [injection H as -> _; reflexivity|]).
  apply elem_of_nil in H. contradiction.
Qed.

Lemma Join_two_has_dot a b : Contains (Join [a; b] ".") "." = true.
Proof. cbn [Join]. apply (Contains_append a "." b). Qed.

Lemma drop_last_two {A} (l : list A) :
  (2 <= length l)%nat -> exists a b, drop (length l - 2) l = [a; b].
Proof.
  intros Hlen.
  assert (length (drop (length l - 2) l) = 2%nat) as Hd
    by (rewrite length_drop; lia).
  destruct (drop (length l - 2) l) as [|a [|b [|c t]]]; try discriminate.
  eauto.
Qed.

(** The compound key of the last two labels is never in the table. *)
Lemma whoisServers_compound_absent (parts : list string) :
  (2 <= length parts)%nat ->
  whoisServers !! Join (drop (length parts - 2) parts) "." = None.
Proof.
  intros Hlen. destruct (drop_last_two parts Hlen) as (a & b & ->).
  destruct (whoisServers !! Join [a; b] ".") as [srv|] eqn:E; [|reflexivity].
  apply whoisServers_keys_no_dot in E. rewrite Join_two_has_dot in E. discriminate.
Qed.

(** [C10], as the code has it: no key of the table contains a dot, so the
    lookup of the last two labels never succeeds, and for a domain of at
    least two labels [server] is the direct lookup of the last label; a
    domain of fewer than two labels is refused before any lookup. *)
Theorem server_by_last_label domain :
  server domain =
    if (length (Split domain ".") <? 2)%nat
    then ("", Some ("无效域名: " +:+ domain))
    else serverByLastLabel domain.
Proof.
  unfold server, serverByLastLabel.
  destruct (length (Split domain ".") <? 2)%nat eqn:Hlen; [reflexivity|].
  destruct (3 <=? length (Split domain "."))%nat eqn:H3; [|reflexivity].
  rewrite whoisServers_compound_absent; [reflexivity|].
  apply Nat.leb_le in H3. lia.
Qed.

(** [C10], as stated, fails on a domain of one label: "com" is refused
    although its last label is in the table. *)
Lemma server_single_label_differs :
  server "com" = ("", Some "无效域名: com") /\
  serverByLastLabel "com" = ("whois.verisign-grs.com", None) /\
  server "com" <> serverByLastLabel "com".
Proof.
  split; [vm_compute; reflexivity|]. split; [vm_compute; reflexivity|].
  intros H. vm_compute in H. discriminate H.
Qed.

End WhoisServer.

(* ===================================================================== *)
(** ** rdap.go: the answer of one endpoint *)
(* ===================================================================== *)

Section RDAPServer.

Variable env : Env.

Lemma fold_left_keeps {A B} (P : A -> Prop) (f : A -> B -> A) (l : list B) (a : A) :
  P a -> (forall a b, P a -> P (f a b)) -> P (fold_left f l a).
Proof.
  intros Ha Hf. revert a Ha. induction l as [|b l IH]; intros a Ha; [exact Ha|].
  apply IH, Hf, Ha.
Qed.

Lemma registrarOfRoles_eq roles entity r :
  registrarOfRoles roles entity r =
    if existsb (fun role => String.eqb role "registrar") roles
    then setRegistrar r (extractVCardFN (VCardArray entity))
    else r.
Proof.
  induction roles as [|role roles IH]; [reflexivity|].
  cbn [registrarOfRoles existsb]. destruct (String.eqb role "registrar"); [reflexivity|].
  exact IH.
Qed.

Lemma registrarOfEntities_snoc ents entity r :
  registrarOfEntities (ents ++ [entity]) r =
    registrarOfRoles (Roles entity) entity (registrarOfEntities ents r).
Proof. unfold registrarOfEntities. rewrite fold_left_app. reflexivity. Qed.

Lemma registrarOfEntities_Registrar ents r :
  Registrar (registrarOfEntities ents r) =
    match find isRegistrar (rev ents) with
    | Some entity => extractVCardFN (VCardArray entity)
    | None => Registrar r
    end.
Proof.
  induction ents as [|entity ents IH] using rev_ind; [reflexivity|].
  rewrite registrarOfEntities_snoc, rev_app_distr, registrarOfRoles_eq.
  cbn [rev app find]. unfold isRegistrar at 1.
  destruct (existsb _ (Roles entity)); [reflexivity | exact IH].
Qed.

Lemma resultOfDomain_fields domain d :
  sameButRegistrarExpiry (newResult domain StatusRegistered) (resultOfDomain env domain d).
Proof.
  unfold resultOfDomain, registrarOfEntities, expiryOfEvents.
  apply fold_left_keeps.
  - apply fold_left_keeps; [repeat split|].
    intros a ev Ha. destruct (String.eqb _ _); [|exact Ha].
    destruct (time_Parse _ _ _); exact Ha.
  - intros a entity Ha. rewrite registrarOfRoles_eq.
    destruct (existsb _ _); exact Ha.
Qed.

Lemma expiryOfEvents_Registrar evs r :
  Registrar (expiryOfEvents env evs r) = Registrar r.
Proof.
  unfold expiryOfEvents. apply fold_left_keeps; [reflexivity|].
  intros a ev Ha. destruct (String.eqb _ _); [|exact Ha].
  destruct (time_Parse _ _ _); exact Ha.
Qed.

Lemma resultOfDomain_Registrar domain d :
  Registrar (resultOfDomain env domain d) = registrarOfLast (Entities d).
Proof.
  unfold resultOfDomain, registrarOfLast.
  rewrite registrarOfEntities_Registrar, expiryOfEvents_Registrar. reflexivity.
Qed.

Lemma queryServer_eq url domain w :
  queryServer env url domain w =
    (readServer env domain (http_answer env (clock w) url), afterGets w [url]).
Proof.
  unfold queryServer, bind, httpGet, ret, afterGets. cbn [length map].
  rewrite Nat.add_1_r. reflexivity.
Qed.

(** [C4], as the code has it: on a 200 answer whose body decodes, every
    entity whose roles include "registrar" overwrites the registrar, so the
    registrar is the display name ([extractVCardFN]) of the last such
    entity, and empty when there is none. *)
Theorem queryServer_registrar_last url domain w code data d :
  http_answer env (clock w) url = HttpResp code (ReadOk data) ->
  code = 200 ->
  json_domain env data = inr d ->
  snd (fst (queryServer env url domain w)) = None /\
  Status (fst (fst (queryServer env url domain w))) = StatusRegistered /\
  Registrar (fst (fst (queryServer env url domain w))) = registrarOfLast (Entities d).
Proof.
  intros Hresp -> Hjson. rewrite queryServer_eq, Hresp.
  cbn [fst readServer Z.eqb Pos.eqb negb]. rewrite Hjson. cbn [fst snd].
  split; [reflexivity|]. split.
  - apply (resultOfDomain_fields domain d).
  - apply resultOfDomain_Registrar.
Qed.

End RDAPServer.

Lemma queryServer_registrar_last_witness :
  Registrar (fst (fst (queryServer Fixture.online
     "https://rdap.d.example/domain/example.net" "example.net" initWorld)))
  = "Second Registrar".
Proof.
  exact (proj2 (proj2 (queryServer_registrar_last Fixture.online
    "https://rdap.d.example/domain/example.net" "example.net" initWorld
    200 "two registrars" Fixture.twoRegistrars eq_refl eq_refl eq_refl))).
Defined.

(** [C4], as stated, fails when two entities have the role: the registrar
    is the name of the second, not of the first. *)
Lemma queryServer_registrar_not_first :
  let r := fst (fst (queryServer Fixture.online
     "https://rdap.d.example/domain/example.net" "example.net" initWorld)) in
  Status r = StatusRegistered /\
  Registrar r = "Second Registrar" /\
  registrarOfFirst (Entities Fixture.twoRegistrars) = "First Registrar" /\
  Registrar r <> registrarOfFirst (Entities Fixture.twoRegistrars).
Proof.
  vm_compute. repeat split. discriminate.
Qed.

(* ===================================================================== *)
(** ** rdap.go: [Query] over the endpoints *)
(* ===================================================================== *)

Section RDAPQuery.

Variable env : Env.

Lemma readServer_fails domain resp :
  snd (readServer env domain resp) <> None <-> softFailure env resp = true.
Proof.
  destruct resp as [e|code body]; cbn [readServer softFailure snd].
  - split; [reflexivity | discriminate].
  - destruct (code =? 404); cbn [snd negb andb]; [split; [congruence|discriminate]|].
    destruct (code =? 200); cbn [snd negb orb]; [|split; [reflexivity|discriminate]].
    destruct body as [e|data]; cbn [snd]; [split; [reflexivity|discriminate]|].
    destruct (json_domain env data); cbn [snd]; split; congruence.
Qed.

Lemma afterGets_nil w : afterGets w [] = w.
Proof.
  destruct w as [c n l]. unfold afterGets. cbn [rdap clock log length map].
  rewrite Nat.add_0_r, app_nil_r. reflexivity.
Qed.

Lemma afterGets_app w urls urls' :
  afterGets (afterGets w urls) urls' = afterGets w (urls ++ urls').
Proof.
  unfold afterGets. cbn [rdap clock log].
  rewrite map_app, length_app, <- app_assoc. f_equal. lia.
Qed.

Lemma afterGets_cons w url urls :
  afterGets (afterGets w [url]) urls = afterGets w (url :: urls).
Proof.
  unfold afterGets. cbn [rdap clock log length map].
  rewrite <- app_assoc. f_equal. lia.
Qed.

Lemma endpointOutcome_shift domain w url k srv :
  endpointOutcome env domain (afterGets w [url]) k srv =
  endpointOutcome env domain w (S k) srv.
Proof.
  unfold endpointOutcome, afterGets. cbn [clock length].
  replace (clock w + 1 + k)%nat with (clock w + S k)%nat by lia. reflexivity.
Qed.

Lemma queryServers_cons srv rest domain w :
  queryServers env (srv :: rest) domain w =
    match snd (endpointOutcome env domain w 0 srv) with
    | None => ((fst (endpointOutcome env domain w 0 srv), None),
               afterGets w [serverURL srv domain])
    | Some _ => queryServers env rest domain (afterGets w [serverURL srv domain])
    end.
Proof.
  cbn [queryServers]. unfold bind at 1. rewrite queryServer_eq.
  unfold endpointOutcome. rewrite Nat.add_0_r.
  destruct (snd (readServer env domain _)); reflexivity.
Qed.

(** The endpoints that fail are passed over, in order. *)
Lemma queryServers_skip pre rest domain w :
  (forall k srv, pre !! k = Some srv -> endpointFails env domain w k srv) ->
  queryServers env (pre ++ rest) domain w =
  queryServers env rest domain (afterGets w (map (fun srv => serverURL srv domain) pre)).
Proof.
  revert w. induction pre as [|srv pre IH]; intros w Hfail.
  - cbn [app map]. rewrite afterGets_nil. reflexivity.
  - cbn [app]. rewrite queryServers_cons.
    pose proof (Hfail 0%nat srv eq_refl) as H0. unfold endpointFails in H0.
    destruct (snd (endpointOutcome env domain w 0 srv)); [|congruence].
    rewrite IH.
    + cbn [map]. rewrite afterGets_cons. reflexivity.
    + intros k s Hk. unfold endpointFails. rewrite endpointOutcome_shift.
      apply (Hfail (S k) s Hk).
Qed.

Lemma queryServers_all_fail srvs domain w :
  (forall k srv, srvs !! k = Some srv -> endpointFails env domain w k srv) ->
  queryServers env srvs domain w =
    ((zeroResult, Some (allEndpointsFailed domain)),
     afterGets w (map (fun srv => serverURL srv domain) srvs)).
Proof.
  intros Hfail. rewrite <- (app_nil_r srvs) at 1.
  rewrite (queryServers_skip srvs [] domain w Hfail). reflexivity.
Qed.

Lemma queryServers_first_decisive pre srv post domain w :
  (forall k s, pre !! k = Some s -> endpointFails env domain w k s) ->
  ~ endpointFails env domain w (length pre) srv ->
  queryServers env (pre ++ srv :: post) domain w =
    ((fst (endpointOutcome env domain w (length pre) srv), None),
     afterGets w (map (fun s => serverURL s domain) (pre ++ [srv]))).
Proof.
  intros Hfail Hok. rewrite (queryServers_skip pre _ domain w Hfail).
  rewrite queryServers_cons.
  set (w' := afterGets w _).
  assert (endpointOutcome env domain w' 0 srv =
          endpointOutcome env domain w (length pre) srv) as ->.
  { unfold endpointOutcome, w', afterGets. cbn [clock].
    rewrite length_map, Nat.add_0_r. reflexivity. }
  unfold endpointFails in Hok.
  destruct (snd (endpointOutcome env domain w (length pre) srv)) eqn:E.
  - exfalso. apply Hok. discriminate.
  - unfold w'. rewrite afterGets_app, map_app. reflexivity.
Qed.

Lemma queryServers_error_all_fail srvs domain w :
  snd (fst (queryServers env srvs domain w)) <> None ->
  forall k srv, srvs !! k = Some srv -> endpointFails env domain w k srv.
Proof.
  revert w. induction srvs as [|s srvs IH]; intros w Herr k srv Hk; [discriminate|].
  rewrite queryServers_cons in Herr.
  destruct (snd (endpointOutcome env domain w 0 s)) eqn:E.
  - destruct k as [|k].
    + injection Hk as <-. unfold endpointFails. rewrite E. discriminate.
    + unfold endpointFails.
      rewrite <- (endpointOutcome_shift domain w (serverURL s domain)).
      apply (IH _ Herr k srv Hk).
  - cbn [fst snd] in Herr. congruence.
Qed.

Lemma RDAPQuery_found domain w0 srvs w :
  servers env domain w0 = ((srvs, None), w) ->
  RDAPQuery env domain w0 = queryServers env srvs domain w.
Proof. intros H. unfold RDAPQuery, bind. rewrite H. reflexivity. Qed.

Lemma RDAPQuery_unresolved domain w0 srvs e w :
  servers env domain w0 = ((srvs, Some e), w) ->
  RDAPQuery env domain w0 = ((zeroResult, Some e), w).
Proof. intros H. unfold RDAPQuery, bind. rewrite H. reflexivity. Qed.

(** [C5] Once the endpoints of the domain are known, [Query] tries them in
    the order of the list.  An endpoint fails exactly on a transport error,
    a status other than 200 and 404, or a 200 whose body cannot be read or
    parsed.  The endpoints that fail are passed over; the result is that of
    the first endpoint that does not fail, and no later endpoint is asked;
    the all-endpoints-failed error is returned when every endpoint fails,
    and an error is returned only then. *)
Theorem RDAPQuery_endpoints domain w0 srvs w :
  servers env domain w0 = ((srvs, None), w) ->
  (forall resp,
      snd (readServer env domain resp) <> None <-> softFailure env resp = true) /\
  ((forall k srv, srvs !! k = Some srv -> endpointFails env domain w k srv) ->
   RDAPQuery env domain w0 =
     ((zeroResult, Some (allEndpointsFailed domain)),
      afterGets w (map (fun srv => serverURL srv domain) srvs))) /\
  (snd (fst (RDAPQuery env domain w0)) <> None ->
   forall k srv, srvs !! k = Some srv -> endpointFails env domain w k srv) /\
  (forall pre srv post,
      srvs = pre ++ srv :: post ->
      (forall k s, pre !! k = Some s -> endpointFails env domain w k s) ->
      ~ endpointFails env domain w (length pre) srv ->
      RDAPQuery env domain w0 =
        ((fst (endpointOutcome env domain w (length pre) srv), None),
         afterGets w (map (fun s => serverURL s domain) (pre ++ [srv])))).
Proof.
  intros Hsrv. rewrite (RDAPQuery_found domain w0 srvs w Hsrv).
  split; [apply readServer_fails|]. split; [apply queryServers_all_fail|].
  split; [apply queryServers_error_all_fail|].
  intros pre srv post ->. apply queryServers_first_decisive.
Qed.

End RDAPQuery.

Lemma RDAPQuery_endpoints_witness :
  fst (RDAPQuery Fixture.online "example.com" initWorld)
    = (newResult "example.com" StatusAvailable, None) /\
  log (snd (RDAPQuery Fixture.online "example.com" initWorld))
    = [ ReqGet "https://data.iana.org/rdap/dns.json";
        ReqGet "https://rdap.a.example/domain/example.com";
        ReqGet "https://rdap.b.example/domain/example.com";
        ReqGet "https://rdap.c.example/domain/example.com" ].
Proof.
  pose proof (RDAPQuery_endpoints Fixture.online "example.com" initWorld
    [ "https://rdap.a.example/"; "https://rdap.b.example/"; "https://rdap.c.example/" ]
    (snd (servers Fixture.online "example.com" initWorld))) as H.
  destruct H as (_ & _ & _ & H); [vm_compute; reflexivity|].
  specialize (H [ "https://rdap.a.example/"; "https://rdap.b.example/" ]
                "https://rdap.c.example/" [] eq_refl).
  rewrite H.
  - split; reflexivity.
  - intros [|[|k]] s Hk; try discriminate; injection Hk as <-; vm_compute; discriminate.
  - vm_compute. intros Hn. apply Hn. reflexivity.
Defined.

(* ===================================================================== *)
(** ** checker.go: what [Check] returns *)
(* ===================================================================== *)

Section Checker.

Variable env : Env.

Lemma readServer_ok domain resp r :
  readServer env domain resp = (r, None) ->
  Domain r = domain /\
  (Status r = StatusAvailable \/ Status r = StatusRegistered) /\
  Source r = "" /\ Err r = "".
Proof.
  destruct resp as [e|code body]; cbn [readServer]; [discriminate|].
  destruct (code =? 404).
  { intros [= <-]. cbn. tauto. }
  destruct (negb (code =? 200)); [discriminate|].
  destruct body as [e|data]; [discriminate|].
  destruct (json_domain env data) as [e|d]; [discriminate|].
  intros [= <-].
  destruct (resultOfDomain_fields env domain d) as (-> & -> & -> & ->).
  cbn. tauto.
Qed.

Lemma queryServers_ok srvs domain w r w' :
  queryServers env srvs domain w = ((r, None), w') ->
  Domain r = domain /\
  (Status r = StatusAvailable \/ Status r = StatusRegistered) /\
  Source r = "" /\ Err r = "".
Proof.
  revert w. induction srvs as [|srv srvs IH]; intros w; [discriminate|].
  rewrite queryServers_cons.
  destruct (endpointOutcome env domain w 0 srv) as [r0 [e|]] eqn:E; cbn [fst snd].
  - apply IH.
  - intros [= <- _]. apply (readServer_ok domain _ r0 E).
Qed.

Lemma RDAPQuery_ok domain w r w' :
  RDAPQuery env domain w = ((r, None), w') ->
  Domain r = domain /\
  (Status r = StatusAvailable \/ Status r = StatusRegistered) /\
  Source r = "" /\ Err r = "".
Proof.
  destruct (servers env domain w) as [[srvs [e|]] w1] eqn:E.
  - rewrite (RDAPQuery_unresolved env domain w srvs e w1 E). discriminate.
  - rewrite (RDAPQuery_found env domain w srvs w1 E). apply queryServers_ok.
Qed.

Lemma WHOISQuery_ok domain w r w' :
  WHOISQuery env domain w = ((r, None), w') ->
  Domain r = domain /\
  (Status r = StatusAvailable \/ Status r = StatusRegistered) /\
  Source r = "" /\ Err r = "".
Proof.
  unfold WHOISQuery.
  destruct (server domain) as [srv [e|]]; [discriminate|].
  unfold bind, whoisExchange, ret.
  destruct (whois_answer env (clock w) _ _) as [e|e|e|body]; try discriminate.
  destruct (String.eqb _ StatusUnknown) eqn:Hunk; [discriminate|].
  intros [= <- _].
  rewrite parseWHOIS_Domain.
  destruct (parseWHOIS_Source_Err env domain body) as [-> ->].
  rewrite parseWHOIS_Status in Hunk |- *.
  destruct (anyMarker notRegisteredMarkers _); [tauto|].
  destruct (anyMarker registeredMarkers _); [tauto|].
  discriminate.
Qed.

Lemma WHOISQuery_error domain w r e w' :
  WHOISQuery env domain w = ((r, Some e), w') -> e <> "".
Proof.
  unfold WHOISQuery, server.
  destruct (length (Split domain ".") <? 2)%nat.
  { intros [= _ <- _]. apply append_nonempty. discriminate. }
  assert (forall o : option string, forall x y,
    match o with
    | Some srv => (srv, None)
    | None => ("", Some ("未找到 TLD 的 WHOIS 服务器: " +:+ x))
    end = (y, Some e) -> e <> "") as Hsingle.
  { intros [srv|] x y; [discriminate|].
    intros [= _ <-]. apply append_nonempty. discriminate. }
  set (found := if (3 <=? length (Split domain "."))%nat then _ else _).
  destruct found as [srv [e0|]] eqn:Efound.
  - intros [= _ <- _]. subst found.
    destruct (3 <=? length (Split domain "."))%nat.
    + destruct (whoisServers !! Join _ "."); [discriminate|].
      apply (Hsingle _ _ _ Efound).
    + apply (Hsingle _ _ _ Efound).
  - unfold bind, whoisExchange, ret.
    destruct (whois_answer env (clock w) _ _) as [e1|e1|e1|body].
    1-3: intros [= _ <- _]; apply append_nonempty; discriminate.
    destruct (String.eqb _ StatusUnknown); [|discriminate].
    intros [= _ <- _]. apply append_nonempty. discriminate.
Qed.

Lemma Check_eq domain w :
  Check env domain w =
    match RDAPQuery env (normalize env domain) w with
    | ((r, None), w1) => (setSource r "rdap", w1)
    | ((_, Some _), w1) =>
        match WHOISQuery env (normalize env domain) w1 with
        | ((_, Some e), w2) =>
            (mkResult (normalize env domain) StatusUnknown "" None "" e, w2)
        | ((r, None), w2) => (setSource r "whois", w2)
        end
    end.
Proof.
  unfold Check, bind, ret.
  destruct (RDAPQuery env (normalize env domain) w) as [[r [e|]] w1]; cbn [fst snd];
    [|reflexivity].
  destruct (WHOISQuery env (normalize env domain) w1) as [[r2 [e2|]] w2]; reflexivity.
Qed.

(** Whichever client answers, the result carries the normalized domain. *)
Lemma Check_Domain domain w : Domain (fst (Check env domain w)) = normalize env domain.
Proof.
  rewrite Check_eq.
  destruct (RDAPQuery env (normalize env domain) w) as [[r [e|]] w1] eqn:E1.
  - destruct (WHOISQuery env (normalize env domain) w1) as [[r2 [e2|]] w2] eqn:E2;
      [reflexivity|].
    apply WHOISQuery_ok in E2 as (H & _). exact H.
  - apply RDAPQuery_ok in E1 as (H & _). exact H.
Qed.

(** [C2] Every result of [Check] has an error text exactly when its status
    is Unknown and an empty source exactly when its status is Unknown; a
    Registered or Available result has the source "rdap" or "whois" and no
    error text. *)
Theorem Check_result_invariant domain w :
  let r := fst (Check env domain w) in
  (Err r <> "" <-> Status r = StatusUnknown) /\
  (Source r = "" <-> Status r = StatusUnknown) /\
  (Status r = StatusRegistered \/ Status r = StatusAvailable ->
   (Source r = "rdap" \/ Source r = "whois") /\ Err r = "").
Proof.
  cbv zeta. rewrite Check_eq.
  assert (forall r src, (src = "rdap" \/ src = "whois") ->
    (Status r = StatusAvailable \/ Status r = StatusRegistered) -> Err r = "" ->
    (Err (setSource r src) <> "" <-> Status (setSource r src) = StatusUnknown) /\
    (Source (setSource r src) = "" <-> Status (setSource r src) = StatusUnknown) /\
    (Status (setSource r src) = StatusRegistered \/
     Status (setSource r src) = StatusAvailable ->
     (Source (setSource r src) = "rdap" \/ Source (setSource r src) = "whois") /\
     Err (setSource r src) = "")) as Hanswered.
  { intros r src Hsrc Hst Herr. cbn [setSource Err Status Source]. rewrite Herr.
    assert (Status r <> StatusUnknown) as Hknown by (destruct Hst as [-> | ->]; discriminate).
    assert (src <> "") as Hset by (destruct Hsrc as [-> | ->]; discriminate).
    split; [split; [congruence | contradiction]|].
    split; [split; [contradiction | contradiction]|].
    intros _. split; [exact Hsrc | reflexivity]. }
  destruct (RDAPQuery env (normalize env domain) w) as [[r [e|]] w1] eqn:E1.
  - destruct (WHOISQuery env (normalize env domain) w1) as [[r2 [e2|]] w2] eqn:E2.
    + apply WHOISQuery_error in E2. cbn [fst Err Status Source].
      split; [tauto|]. split; [tauto|]. intros [H|H]; discriminate H.
    + apply WHOISQuery_ok in E2 as (_ & Hst & _ & Herr).
      apply Hanswered; [right; reflexivity | exact Hst | exact Herr].
  - apply RDAPQuery_ok in E1 as (_ & Hst & _ & Herr).
    apply Hanswered; [left; reflexivity | exact Hst | exact Herr].
Qed.

(** [C3] An endpoint that answers 404 makes [queryServer] return a result
    with status Available and neither registrar nor expiry; and when the
    endpoints before it in the list have failed, this is the result of the
    query, which [Check] returns with the source "rdap". *)
Theorem Check_rdap_404 :
  (forall url domain w body,
      http_answer env (clock w) url = HttpResp 404 body ->
      fst (queryServer env url domain w) = (newResult domain StatusAvailable, None) /\
      Status (fst (fst (queryServer env url domain w))) = StatusAvailable /\
      Registrar (fst (fst (queryServer env url domain w))) = "" /\
      Expiry (fst (fst (queryServer env url domain w))) = None) /\
  (forall domain w srvs w1 pre srv post body,
      servers env (normalize env domain) w = ((srvs, None), w1) ->
      srvs = pre ++ srv :: post ->
      (forall k s, pre !! k = Some s -> endpointFails env (normalize env domain) w1 k s) ->
      http_answer env (clock w1 + length pre) (serverURL srv (normalize env domain))
        = HttpResp 404 body ->
      fst (Check env domain w)
        = mkResult (normalize env domain) StatusAvailable "" None "rdap" "").
Proof.
  split.
  - intros url domain w body H404. rewrite queryServer_eq, H404. cbn. tauto.
  - intros domain w srvs w1 pre srv post body Hsrv -> Hpre H404.
    assert (endpointOutcome env (normalize env domain) w1 (length pre) srv
            = (newResult (normalize env domain) StatusAvailable, None)) as Hout.
    { unfold endpointOutcome. rewrite H404. reflexivity. }
    rewrite Check_eq, (RDAPQuery_found env _ w _ w1 Hsrv).
    rewrite (queryServers_first_decisive env pre srv post _ w1 Hpre).
    + rewrite Hout. reflexivity.
    + unfold endpointFails. rewrite Hout. intros H. apply H. reflexivity.
Qed.

End Checker.

Lemma Check_rdap_404_witness :
  fst (queryServer Fixture.online "https://rdap.c.example/domain/example.com"
         "example.com" initWorld)
    = (newResult "example.com" StatusAvailable, None) /\
  fst (Check Fixture.online "  Example.COM " initWorld)
    = mkResult "example.com" StatusAvailable "" None "rdap" "".
Proof.
  split.
  - exact (proj1 (proj1 (Check_rdap_404 Fixture.online)
      "https://rdap.c.example/domain/example.com" "example.com" initWorld
      (ReadOk "") eq_refl)).
  - refine (proj2 (Check_rdap_404 Fixture.online) "  Example.COM " initWorld
      [ "https://rdap.a.example/"; "https://rdap.b.example/"; "https://rdap.c.example/" ]
      (snd (servers Fixture.online "example.com" initWorld))
      [ "https://rdap.a.example/"; "https://rdap.b.example/" ]
      "https://rdap.c.example/" [] (ReadOk "") _ eq_refl _ _).
    + vm_compute. reflexivity.
    + intros [|[|k]] s Hk; try discriminate; injection Hk as <-; vm_compute; discriminate.
    + reflexivity.
Defined.

(* ===================================================================== *)
(** ** rdap.go: the bootstrap cache *)
(* ===================================================================== *)

Section Bootstrap.

Variable env : Env.

Lemma loadBootstrap_loaded w :
  loaded (rdap w) = true -> loadBootstrap env w = (None, w).
Proof.
  intros H. unfold loadBootstrap, bind, getClient, ret. rewrite H. reflexivity.
Qed.

Lemma loadBootstrap_unloaded w :
  loaded (rdap w) = false ->
  loadBootstrap env w =
    match http_answer env (clock w) bootstrapURL with
    | HttpErr e =>
        (Some ("获取 RDAP bootstrap 失败: " +:+ e), afterGets w [bootstrapURL])
    | HttpResp _ (ReadFail e) => (Some e, afterGets w [bootstrapURL])
    | HttpResp _ (ReadOk body) =>
        match json_services env body with
        | inl e => (Some ("解析 bootstrap JSON 失败: " +:+ e), afterGets w [bootstrapURL])
        | inr services =>
            (None, mkWorld (mkRDAPClient (addServices env (bootstrap (rdap w)) services) true)
                           (clock w + 1) (log w ++ [ReqGet bootstrapURL]))
        end
    end.
Proof.
  intros H. unfold loadBootstrap, bind, getClient, httpGet, putClient, ret, afterGets.
  rewrite H. cbn [rdap clock log length map]. rewrite Nat.add_1_r.
  destruct (http_answer env (clock w) bootstrapURL) as [e|code [e|body]];
    try reflexivity.
  destruct (json_services env body); reflexivity.
Qed.

Lemma loadBootstrap_log_unloaded w :
  loaded (rdap w) = false ->
  log (snd (loadBootstrap env w)) = log w ++ [ReqGet bootstrapURL].
Proof.
  intros H. rewrite (loadBootstrap_unloaded w H).
  destruct (http_answer env (clock w) bootstrapURL) as [e|code [e|body]];
    try reflexivity.
  destruct (json_services env body); reflexivity.
Qed.

Lemma serverURL_not_bootstrap srv domain : serverURL srv domain <> bootstrapURL.
Proof.
  intros H.
  assert (Contains (serverURL srv domain) "/domain/" = true) as Hc
    by apply Contains_append.
  rewrite H in Hc. vm_compute in Hc. discriminate Hc.
Qed.

Lemma servers_world domain w :
  snd (servers env domain w) = snd (loadBootstrap env w).
Proof.
  unfold servers, bind, getClient, ret.
  destruct (loadBootstrap env w) as [[e|] w1]; reflexivity.
Qed.

Lemma queryServers_world srvs domain w :
  rdap (snd (queryServers env srvs domain w)) = rdap w /\
  exists new, log (snd (queryServers env srvs domain w)) = log w ++ new /\
              ~ In (ReqGet bootstrapURL) new.
Proof.
  revert w. induction srvs as [|srv srvs IH]; intros w.
  - split; [reflexivity|]. exists []. rewrite app_nil_r. split; [reflexivity|].
    intros [].
  - rewrite queryServers_cons.
    assert (~ In (ReqGet bootstrapURL) [ReqGet (serverURL srv domain)]) as Hnot.
    { intros [H|[]]. injection H as H. exact (serverURL_not_bootstrap _ _ H). }
    destruct (snd (endpointOutcome env domain w 0 srv)).
    + destruct (IH (afterGets w [serverURL srv domain])) as (Hr & new & Hl & Hn).
      split; [rewrite Hr; reflexivity|].
      exists (ReqGet (serverURL srv domain) :: new). split.
      * rewrite Hl. cbn [afterGets log map]. rewrite <- app_assoc. reflexivity.
      * intros [H|H]; [apply Hnot; left; exact H | exact (Hn H)].
    + split; [reflexivity|]. exists [ReqGet (serverURL srv domain)].
      split; [reflexivity | exact Hnot].
Qed.

Lemma WHOISQuery_world domain w :
  rdap (snd (WHOISQuery env domain w)) = rdap w /\
  exists new, log (snd (WHOISQuery env domain w)) = log w ++ new /\
              ~ In (ReqGet bootstrapURL) new.
Proof.
  unfold WHOISQuery.
  destruct (server domain) as [srv [e|]].
  - split; [reflexivity|]. exists []. rewrite app_nil_r. split; [reflexivity|].
    intros [].
  - unfold bind, whoisExchange, ret.
    assert (~ In (ReqGet bootstrapURL) [ReqWhois (srv +:+ ":43") (domain +:+ CRLF)])
      as Hnot by (intros [H|[]]; discriminate H).
    destruct (whois_answer env (clock w) _ _) as [e|e|e|body];
      try (split; [reflexivity|]; eexists; split; [reflexivity | exact Hnot]).
    destruct (String.eqb _ StatusUnknown);
      (split; [reflexivity|]; eexists; split; [reflexivity | exact Hnot]).
Qed.

(** After its call of [loadBootstrap], [Check] leaves the client alone and
    never asks for the bootstrap document. *)
Lemma Check_after_load domain w :
  rdap (snd (Check env domain w)) = rdap (snd (loadBootstrap env w)) /\
  exists new,
    log (snd (Check env domain w)) = log (snd (loadBootstrap env w)) ++ new /\
    ~ In (ReqGet bootstrapURL) new.
Proof.
  rewrite Check_eq.
  assert (rdap (snd (RDAPQuery env (normalize env domain) w))
            = rdap (snd (loadBootstrap env w)) /\
          exists new, log (snd (RDAPQuery env (normalize env domain) w))
                        = log (snd (loadBootstrap env w)) ++ new /\
                      ~ In (ReqGet bootstrapURL) new) as HQ.
  { rewrite <- (servers_world (normalize env domain) w).
    destruct (servers env (normalize env domain) w) as [[srvs [e|]] w1] eqn:E.
    - rewrite (RDAPQuery_unresolved env _ w srvs e w1 E). cbn [snd].
      split; [reflexivity|]. exists []. rewrite app_nil_r.
      split; [reflexivity | intros []].
    - rewrite (RDAPQuery_found env _ w srvs w1 E). cbn [snd].
      apply queryServers_world. }
  destruct (RDAPQuery env (normalize env domain) w) as [[r [e|]] w1]; cbn [snd] in *;
    [|exact HQ].
  destruct HQ as (Hr & new & Hl & Hn).
  destruct (WHOISQuery_world (normalize env domain) w1) as (Hr2 & new2 & Hl2 & Hn2).
  assert (rdap (snd (WHOISQuery env (normalize env domain) w1))
            = rdap (snd (loadBootstrap env w)) /\
          exists new', log (snd (WHOISQuery env (normalize env domain) w1))
                        = log (snd (loadBootstrap env w)) ++ new' /\
                      ~ In (ReqGet bootstrapURL) new') as HW.
  { split; [congruence|]. exists (new ++ new2). split.
    - rewrite Hl2, Hl, app_assoc. reflexivity.
    - intros H. apply in_app_or in H as [H|H]; [exact (Hn H) | exact (Hn2 H)]. }
  destruct (WHOISQuery env (normalize env domain) w1) as [[r2 [e2|]] w2]; exact HW.
Qed.

(** [C6] A fetch of the bootstrap document that fails makes [loadBootstrap]
    return the error and leave the client as it was, the flag unset and the
    map untouched, so that the next query starts with a new fetch; when
    [loadBootstrap] succeeds the flag is set; and with the flag set
    [loadBootstrap] returns without any network exchange, and a query
    neither changes the client nor fetches the document. *)
Theorem loadBootstrap_failure_retry w :
  (loaded (rdap w) = false -> bootstrapFetchFails env w = true ->
     fst (loadBootstrap env w) <> None /\
     rdap (snd (loadBootstrap env w)) = rdap w /\
     log (snd (loadBootstrap env w)) = log w ++ [ReqGet bootstrapURL] /\
     forall domain, exists rest,
       log (snd (Check env domain (snd (loadBootstrap env w))))
         = log (snd (loadBootstrap env w)) ++ ReqGet bootstrapURL :: rest) /\
  (fst (loadBootstrap env w) = None ->
     loaded (rdap (snd (loadBootstrap env w))) = true) /\
  (loaded (rdap w) = true ->
     loadBootstrap env w = (None, w) /\
     forall domain,
       rdap (snd (Check env domain w)) = rdap w /\
       exists new, log (snd (Check env domain w)) = log w ++ new /\
                   ~ In (ReqGet bootstrapURL) new).
Proof.
  split; [|split].
  - intros Hun Hfail.
    assert (fst (loadBootstrap env w) <> None /\
            rdap (snd (loadBootstrap env w)) = rdap w) as [Herr Hsame].
    { rewrite (loadBootstrap_unloaded w Hun). unfold bootstrapFetchFails in Hfail.
      destruct (http_answer env (clock w) bootstrapURL) as [e|code [e|body]];
        try (split; [discriminate | reflexivity]).
      destruct (json_services env body); [|discriminate].
      split; [discriminate | reflexivity]. }
    split; [exact Herr|]. split; [exact Hsame|].
    split; [apply (loadBootstrap_log_unloaded w Hun)|].
    intros domain. set (w1 := snd (loadBootstrap env w)) in *.
    assert (loaded (rdap w1) = false) as Hun1 by (rewrite Hsame; exact Hun).
    destruct (Check_after_load domain w1) as (_ & new & Hl & _).
    exists new. rewrite Hl, (loadBootstrap_log_unloaded w1 Hun1), <- app_assoc.
    reflexivity.
  - destruct (loaded (rdap w)) eqn:Hl.
    + rewrite (loadBootstrap_loaded w Hl). intros _. exact Hl.
    + rewrite (loadBootstrap_unloaded w Hl).
      destruct (http_answer env (clock w) bootstrapURL) as [e|code [e|body]];
        try discriminate.
      destruct (json_services env body); [discriminate | reflexivity].
  - intros Hl. split; [apply (loadBootstrap_loaded w Hl)|].
    intros domain. pose proof (Check_after_load domain w) as H.
    rewrite (loadBootstrap_loaded w Hl) in H. exact H.
Qed.

End Bootstrap.

Lemma loadBootstrap_failure_retry_witness :
  let w1 := snd (loadBootstrap Fixture.flaky initWorld) in
  fst (loadBootstrap Fixture.flaky initWorld) <> None /\
  rdap w1 = NewRDAPClient /\
  log w1 = [ReqGet bootstrapURL] /\
  fst (loadBootstrap Fixture.flaky w1) = None /\
  loaded (rdap (snd (loadBootstrap Fixture.flaky w1))) = true.
Proof.
  cbv zeta.
  destruct (proj1 (loadBootstrap_failure_retry Fixture.flaky initWorld) eq_refl eq_refl)
    as (Herr & Hsame & Hlog & _).
  split; [exact Herr|]. split; [exact Hsame|]. split; [exact Hlog|].
  assert (fst (loadBootstrap Fixture.flaky (snd (loadBootstrap Fixture.flaky initWorld)))
          = None) as Hok by (vm_compute; reflexivity).
  split; [exact Hok|].
  exact (proj1 (proj2 (loadBootstrap_failure_retry Fixture.flaky
                         (snd (loadBootstrap Fixture.flaky initWorld)))) Hok).
Defined.

(* ===================================================================== *)
(** ** main.go: the batch *)
(* ===================================================================== *)

Section Batch.

Variable env : Env.
Variable domains : list string.
Variable concurrency : Z.

Lemma sum_list_insert (f : Phase -> nat) (l : list Phase) i p q :
  l !! i = Some p ->
  (sum_list (f <$> <[i := q]> l) + f p = sum_list (f <$> l) + f q)%nat.
Proof.
  revert i. induction l as [|x l IH]; intros [|i] H; try discriminate.
  - injection H as ->. simpl. lia.
  - simpl in H |- *. specialize (IH i H). unfold fmap in *. lia.
Qed.

Lemma sum_list_lookup_le (f : Phase -> nat) (l : list Phase) i p :
  l !! i = Some p -> (f p <= sum_list (f <$> l))%nat.
Proof.
  revert i. induction l as [|x l IH]; intros [|i] H; try discriminate.
  - injection H as ->. simpl. lia.
  - simpl in H |- *. specialize (IH i H). unfold fmap in *. lia.
Qed.

Lemma sum_list_pos (f : Phase -> nat) (l : list Phase) :
  (0 < sum_list (f <$> l))%nat -> exists i p, l !! i = Some p /\ (0 < f p)%nat.
Proof.
  induction l as [|x l IH]; simpl; [lia|]. intros H. unfold fmap in *.
  destruct (f x) as [|n] eqn:E.
  - destruct IH as (i & p & Hi & Hp); [lia|]. exists (S i), p. auto.
  - exists 0%nat, x. split; [reflexivity | lia].
Qed.

Lemma holders_sum (l : list Phase) :
  length (filter (fun p => holdsSlot p = true) l) = sum_list (slotsOf <$> l).
Proof.
  induction l as [|p l IH]; [reflexivity|].
  rewrite filter_cons, fmap_cons. cbn [sum_list]. rewrite <- IH. unfold slotsOf.
  destruct (decide (holdsSlot p = true)) as [->|Hn]; [reflexivity|].
  destruct (holdsSlot p); [congruence | reflexivity].
Qed.

Lemma inFlight_sum s : inFlight s = sum_list (slotsOf <$> phases s).
Proof. apply holders_sum. Qed.

Lemma batchInvariant_init s :
  queryAllInit domains concurrency = Some s -> batchInvariant env domains concurrency s.
Proof.
  unfold queryAllInit. destruct (concurrency <? 0) eqn:Hc; [discriminate|].
  intros [= <-]. apply Z.ltb_ge in Hc.
  unfold batchInvariant. cbn [phases results sem].
  rewrite !length_replicate.
  split; [reflexivity|]. split; [reflexivity|]. split.
  - rewrite inFlight_sum. cbn [phases].
    induction (length domains) as [|n IH]; [reflexivity|]. cbn. exact IH.
  - split; [lia|]. intros i domain _ [H|H];
      apply lookup_replicate in H as [H _]; discriminate.
Qed.

Lemma batchInvariant_step s s' :
  batchInvariant env domains concurrency s -> step env domains concurrency s s' ->
  batchInvariant env domains concurrency s'.
Proof.
  intros (Hp & Hr & Hsem & Hcap & Hres) Hstep.
  unfold batchInvariant. rewrite inFlight_sum in *.
  destruct Hstep as [i s Hi Hroom | i s domain Hi Hd | i s Hi Hpos];
    cbn [phases results sem world] in *; rewrite ?length_insert.
  - split; [exact Hp|]. split; [exact Hr|].
    pose proof (sum_list_insert slotsOf _ i Waiting Running Hi) as Hsum.
    cbn in Hsum. split; [lia|]. split; [lia|].
    intros j d Hj Hph. destruct (decide (i = j)) as [->|Hne].
    + rewrite list_lookup_insert_eq in Hph by (eapply lookup_lt_Some; eauto).
      destruct Hph; discriminate.
    + rewrite list_lookup_insert_ne in Hph by exact Hne. apply (Hres j d Hj Hph).
  - split; [exact Hp|]. split; [exact Hr|].
    pose proof (sum_list_insert slotsOf _ i Running Written Hi) as Hsum.
    cbn in Hsum. split; [lia|]. split; [lia|].
    intros j d Hj Hph. destruct (decide (i = j)) as [->|Hne].
    + rewrite list_lookup_insert_eq
        by (rewrite Hr, <- Hp; eapply lookup_lt_Some; eauto).
      eexists. split; [reflexivity|].
      assert (d = domain) as -> by congruence. apply Check_Domain.
    + rewrite list_lookup_insert_ne in Hph by exact Hne.
      rewrite list_lookup_insert_ne by exact Hne. apply (Hres j d Hj Hph).
  - split; [exact Hp|]. split; [exact Hr|].
    pose proof (sum_list_insert slotsOf _ i Written Finished Hi) as Hsum.
    cbn in Hsum. split; [lia|]. split; [lia|].
    intros j d Hj Hph. destruct (decide (i = j)) as [->|Hne].
    + apply (Hres j d Hj). left. exact Hi.
    + rewrite list_lookup_insert_ne in Hph by exact Hne. apply (Hres j d Hj Hph).
Qed.

Lemma batchInvariant_reachable s :
  reachable env domains concurrency s -> batchInvariant env domains concurrency s.
Proof.
  induction 1 as [s Hinit | s s' _ IH Hstep].
  - apply batchInvariant_init, Hinit.
  - apply (batchInvariant_step s s' IH Hstep).
Qed.

Lemma step_remaining s s' :
  step env domains concurrency s s' -> (remaining s' < remaining s)%nat.
Proof.
  unfold remaining.
  intros [i s0 Hi Hroom | i s0 domain Hi Hd | i s0 Hi Hpos]; cbn [phases].
  - pose proof (sum_list_insert stepsLeft _ i Waiting Running Hi) as H. cbn in H. lia.
  - pose proof (sum_list_insert stepsLeft _ i Running Written Hi) as H. cbn in H. lia.
  - pose proof (sum_list_insert stepsLeft _ i Written Finished Hi) as H. cbn in H. lia.
Qed.

(** A goroutine that holds a slot can always take its next step. *)
Lemma step_of_holder s i p :
  batchInvariant env domains concurrency s ->
  phases s !! i = Some p -> holdsSlot p = true ->
  exists s', step env domains concurrency s s'.
Proof.
  intros (Hp & Hr & Hsem & Hcap & Hres) Hi Hh.
  destruct p; try discriminate.
  - destruct (lookup_lt_is_Some_2 domains i) as [d Hd].
    { rewrite <- Hp. eapply lookup_lt_Some; eauto. }
    eexists. apply (step_check env domains concurrency i s d Hi Hd).
  - eexists. apply (step_release env domains concurrency i s Hi).
    rewrite Hsem, inFlight_sum.
    pose proof (sum_list_lookup_le slotsOf _ i Written Hi) as H. cbn in H. lia.
Qed.

(** With room for at least one goroutine, a batch that is not finished is
    never stuck. *)
Lemma step_progress s :
  1 <= concurrency ->
  reachable env domains concurrency s -> ~ allFinished s ->
  exists s', step env domains concurrency s s'.
Proof.
  intros Hc Hreach Hnot.
  pose proof (batchInvariant_reachable s Hreach) as Hinv.
  unfold allFinished in Hnot.
  apply not_Forall_Exists in Hnot; [|intros p; apply (decide (p = Finished))].
  apply Exists_exists in Hnot as (p & Hin & Hp).
  apply list_elem_of_lookup in Hin as [i Hi].
  destruct (holdsSlot p) eqn:Hh; [apply (step_of_holder s i p Hinv Hi Hh)|].
  destruct p; try discriminate; [|congruence].
  destruct (Z_lt_dec (Z.of_nat (sem s)) concurrency) as [Hroom|Hfull].
  - eexists. apply (step_acquire env domains concurrency i s Hi Hroom).
  - destruct Hinv as (Hlen & Hr & Hsem & Hcap & Hres).
    destruct (sum_list_pos slotsOf (phases s)) as (j & q & Hj & Hq).
    { rewrite <- inFlight_sum, <- Hsem. lia. }
    apply (step_of_holder s j q); [repeat split; assumption | exact Hj |].
    unfold slotsOf in Hq. destruct (holdsSlot q); [reflexivity | lia].
Qed.

Lemma run_to_end n s :
  1 <= concurrency ->
  reachable env domains concurrency s -> (remaining s <= n)%nat ->
  exists s', reachable env domains concurrency s' /\ allFinished s'.
Proof.
  intros Hc. revert s. induction n as [|n IH]; intros s Hreach Hn;
    (destruct (decide (Forall (fun p => p = Finished) (phases s))) as [Hfin|Hnot];
     [exists s; split; [exact Hreach | exact Hfin]|]);
    destruct (step_progress s Hc Hreach Hnot) as [s' Hstep];
    pose proof (step_remaining s s' Hstep) as Hlt.
  - lia.
  - apply (IH s'); [apply (reach_step env domains concurrency s s' Hreach Hstep) | lia].
Qed.

(** [C9] In every state of a batch the number of goroutines between the
    acquisition of a slot and its release, which are those that may be
    inside [Check], is the number of slots taken, and at most the
    concurrency limit. *)
Theorem queryAll_concurrency_ceiling s :
  reachable env domains concurrency s ->
  inFlight s = sem s /\ Z.of_nat (inFlight s) <= concurrency.
Proof.
  intros Hreach.
  destruct (batchInvariant_reachable s Hreach) as (_ & _ & Hsem & Hcap & _).
  rewrite <- Hsem. split; [reflexivity | exact Hcap].
Qed.

(** [C1] With a concurrency limit of at least one, a batch is never stuck
    before every goroutine has finished and every step brings it closer to
    that, so [queryAll] returns; and whatever the order of the steps, the
    results it returns are as many as the domains, the result at each
    position carrying the normalized domain of that position. *)
Theorem queryAll_order_preserving :
  1 <= concurrency ->
  (exists s, reachable env domains concurrency s /\ allFinished s) /\
  (forall s, reachable env domains concurrency s -> ~ allFinished s ->
             exists s', step env domains concurrency s s') /\
  (forall s s', step env domains concurrency s s' ->
                (remaining s' < remaining s)%nat) /\
  (forall s, reachable env domains concurrency s -> allFinished s ->
     length (results s) = length domains /\
     forall i domain, domains !! i = Some domain ->
       exists r, results s !! i = Some r /\ Domain r = normalize env domain).
Proof.
  intros Hc. split; [|split; [|split]].
  - destruct (queryAllInit domains concurrency) as [s0|] eqn:Hinit.
    + apply (run_to_end (remaining s0) s0 Hc); [|lia].
      apply reach_init, Hinit.
    + unfold queryAllInit in Hinit.
      destruct (concurrency <? 0) eqn:E; [|discriminate]. apply Z.ltb_lt in E. lia.
  - intros s. apply (step_progress s Hc).
  - apply step_remaining.
  - intros s Hreach Hfin.
    destruct (batchInvariant_reachable s Hreach) as (Hp & Hr & _ & _ & Hres).
    split; [exact Hr|]. intros i domain Hi. apply (Hres i domain Hi). right.
    destruct (lookup_lt_is_Some_2 (phases s) i) as [p Hpi].
    { rewrite Hp. eapply lookup_lt_Some; eauto. }
    rewrite Hpi. f_equal.
    unfold allFinished in Hfin. rewrite Forall_forall in Hfin.
    apply Hfin, list_elem_of_lookup. eauto.
Qed.

(** With a limit of zero no goroutine ever gets a slot. *)
Lemma queryAll_zero_never_starts s :
  concurrency = 0 -> reachable env domains concurrency s ->
  phases s = replicate (length domains) Waiting.
Proof.
  intros ->. induction 1 as [s Hinit | s s' Hreach IH Hstep].
  - unfold queryAllInit in Hinit. cbn in Hinit. injection Hinit as <-. reflexivity.
  - destruct Hstep as [i s Hi Hroom | i s domain Hi Hd | i s Hi Hpos].
    + lia.
    + rewrite IH in Hi. apply lookup_replicate in Hi as [Hi _]. discriminate.
    + rewrite IH in Hi. apply lookup_replicate in Hi as [Hi _]. discriminate.
Qed.

End Batch.

Lemma queryAll_concurrency_ceiling_witness :
  let s := mkBatch [Running; Waiting] [zeroResult; zeroResult] 1 initWorld in
  inFlight s = sem s /\ Z.of_nat (inFlight s) <= 1.
Proof.
  apply (queryAll_concurrency_ceiling Fixture.offline ["a.com"; "b.net"] 1).
  apply (reach_step Fixture.offline ["a.com"; "b.net"] 1
           (mkBatch [Waiting; Waiting] [zeroResult; zeroResult] 0 initWorld)).
  - apply reach_init. reflexivity.
  - apply (step_acquire Fixture.offline ["a.com"; "b.net"] 1 0
             (mkBatch [Waiting; Waiting] [zeroResult; zeroResult] 0 initWorld)).
    + reflexivity.
    + simpl. lia.
Defined.

Lemma queryAll_order_preserving_witness :
  exists s,
    reachable Fixture.offline Sample.typed 2 s /\ allFinished s /\
    Domain <$> results s = ["a.com"; "b.net"; "münchen.de"].
Proof.
  destruct (queryAll_order_preserving Fixture.offline Sample.typed 2)
    as ((s & Hreach & Hfin) & _ & _ & Hall); [lia|].
  exists s. split; [exact Hreach|]. split; [exact Hfin|].
  destruct (Hall s Hreach Hfin) as (Hlen & Hdom).
  destruct (Hdom 0%nat _ eq_refl) as (r0 & H0 & D0).
  destruct (Hdom 1%nat _ eq_refl) as (r1 & H1 & D1).
  destruct (Hdom 2%nat _ eq_refl) as (r2 & H2 & D2).
  destruct (results s) as [|a [|b [|c [|d l]]]]; try discriminate.
  injection H0 as ->. injection H1 as ->. injection H2 as ->.
  cbn [fmap list_fmap]. rewrite D0, D1, D2. reflexivity.
Defined.

(** [C1], as stated, fails when the limit is zero: with one domain the
    batch starts, no goroutine ever gets a slot, no state in which all have
    finished is reached, and [queryAll] returns no results at all. *)
Lemma queryAll_limit_zero_no_results :
  reachable Fixture.offline ["example.com"] 0
    (mkBatch [Waiting] [zeroResult] 0 initWorld) /\
  (forall s, reachable Fixture.offline ["example.com"] 0 s -> ~ allFinished s).
Proof.
  split; [apply reach_init; reflexivity|].
  intros s Hreach Hfin.
  pose proof (queryAll_zero_never_starts Fixture.offline ["example.com"] 0 s
                eq_refl Hreach) as Hph.
  unfold allFinished in Hfin. rewrite Hph in Hfin.
  inversion Hfin as [|p l Hp _]. discriminate Hp.
Qed.

(* ===================================================================== *)
(** ** rdap.go: the bootstrap map *)
(* ===================================================================== *)

Section BootstrapMap.

Variable env : Env.

Lemma insert_tlds_lookup (servers : list string) (tlds : list string)
    (m : gmap string (list string)) (k : string) :
  fold_left (fun m tld => <[ToLower env tld := servers]> m) tlds m !! k =
    if existsb (fun tld => String.eqb (ToLower env tld) k) tlds
    then Some servers else m !! k.
Proof.
  revert m. induction tlds as [|tld tlds IH]; intros m; [reflexivity|].
  cbn [fold_left existsb]. rewrite IH.
  destruct (String.eqb (ToLower env tld) k) eqn:E.
  - apply String.eqb_eq in E as ->. rewrite lookup_insert_eq.
    cbn [orb]. destruct (existsb _ tlds); reflexivity.
  - apply String.eqb_neq in E. rewrite lookup_insert_ne by exact E.
    reflexivity.
Qed.

Lemma addService_lookup (m : gmap string (list string)) svc k :
  addService env m svc !! k =
    if serviceLists env k svc then Some (serviceServers svc) else m !! k.
Proof.
  destruct svc as [|tlds [|servers rest]]; try reflexivity.
  cbn [addService serviceLists serviceServers]. apply insert_tlds_lookup.
Qed.

Lemma serviceLists_names k svc :
  serviceLists env k svc = true -> exists tld, In tld (hd [] svc) /\ ToLower env tld = k.
Proof.
  destruct svc as [|tlds [|servers rest]]; try discriminate.
  cbn [serviceLists hd]. intros H. apply existsb_exists in H as (tld & Hin & E).
  apply String.eqb_eq in E. eauto.
Qed.

(** [X1] After the entries of a bootstrap document have been added to the
    map, a key has the server list of the last entry that has a server list
    and names a TLD equal to the key once lowercased; a key that no such entry
    names keeps what the map had.  So a key whose entry has changed is the
    lower case of a TLD that an entry names; and when the lower case of a rune
    is its own lower case, as in the case tables of Unicode, every key that
    is not in lower case keeps what the map had. *)
Theorem addServices_lookup (m : gmap string (list string)) services k :
  addServices env m services !! k =
    match find (serviceLists env k) (rev services) with
    | Some svc => Some (serviceServers svc)
    | None => m !! k
    end /\
  (lowerFixed (caseTable env) -> ToLower env k <> k ->
   addServices env m services !! k = m !! k) /\
  (addServices env m services !! k <> m !! k ->
   exists svc tld, In svc services /\ In tld (hd [] svc) /\ ToLower env tld = k).
Proof.
  assert (addServices env m services !! k =
    match find (serviceLists env k) (rev services) with
    | Some svc => Some (serviceServers svc)
    | None => m !! k
    end) as Hchar.
  { induction services as [|svc services IH] using rev_ind; [reflexivity|].
    unfold addServices in *. rewrite fold_left_app, rev_app_distr.
    cbn [fold_left rev app find]. rewrite addService_lookup.
    destruct (serviceLists env k svc); [reflexivity | exact IH]. }
  assert (addServices env m services !! k <> m !! k ->
          exists svc tld, In svc services /\ In tld (hd [] svc) /\ ToLower env tld = k)
    as Hnamed.
  { rewrite Hchar.
    destruct (find (serviceLists env k) (rev services)) as [svc|] eqn:E; [|congruence].
    intros _. apply find_some in E as [Hin E]. apply in_rev in Hin.
    destruct (serviceLists_names k svc E) as (tld & Htld & Hk). eauto. }
  split; [exact Hchar|]. split; [|exact Hnamed].
  intros Hfix Hk.
  destruct (decide (addServices env m services !! k = m !! k)) as [Heq|Hne]; [exact Heq|].
  destruct (Hnamed Hne) as (svc & tld & _ & _ & Htld).
  exfalso. apply Hk. rewrite <- Htld. apply ToLowerBy_fixed, Hfix.
Qed.

End BootstrapMap.

(* ===================================================================== *)
(** ** rdap.go: the expiry of a registered domain *)
(* ===================================================================== *)

Section RDAPExpiry.

Variable env : Env.

Lemma expiryOfEvents_snoc evs ev r :
  expiryOfEvents env (evs ++ [ev]) r =
    match expiryDate env ev with
    | Some t => setExpiry (expiryOfEvents env evs r) t
    | None => expiryOfEvents env evs r
    end.
Proof.
  unfold expiryOfEvents, expiryDate. rewrite fold_left_app. cbn [fold_left].
  destruct (String.eqb (Action ev) "expiration"); reflexivity.
Qed.

Lemma expiryOfEvents_Expiry evs r :
  Expiry (expiryOfEvents env evs r) =
    match lastExpiry env evs with
    | Some t => Some t
    | None => Expiry r
    end.
Proof.
  unfold lastExpiry.
  induction evs as [|ev evs IH] using rev_ind; [reflexivity|].
  rewrite expiryOfEvents_snoc, rev_app_distr. cbn [rev app find].
  destruct (expiryDate env ev) as [t|] eqn:E.
  - rewrite bool_decide_eq_true_2 by eauto. rewrite E. reflexivity.
  - rewrite bool_decide_eq_false_2 by (intros [x Hx]; discriminate). exact IH.
Qed.

Lemma registrarOfEntities_Expiry ents r :
  Expiry (registrarOfEntities ents r) = Expiry r.
Proof.
  unfold registrarOfEntities. apply fold_left_keeps; [reflexivity|].
  intros a entity Ha. rewrite registrarOfRoles_eq.
  destruct (existsb _ _); exact Ha.
Qed.

(** [X2] On a 200 answer whose body decodes, the expiry of the result is
    the date of the last event whose action is exactly "expiration" and whose
    date [time.Parse] accepts as RFC 3339; an expiration event with a date
    that does not parse changes nothing, and without such an event the
    result has no expiry. *)
Theorem queryServer_expiry_last url domain w code data d :
  http_answer env (clock w) url = HttpResp code (ReadOk data) ->
  code = 200 ->
  json_domain env data = inr d ->
  Expiry (fst (fst (queryServer env url domain w))) = lastExpiry env (Events d).
Proof.
  intros Hresp -> Hjson. rewrite queryServer_eq, Hresp.
  cbn [fst readServer Z.eqb Pos.eqb negb]. rewrite Hjson. cbn [fst].
  unfold resultOfDomain.
  rewrite registrarOfEntities_Expiry, expiryOfEvents_Expiry.
  destruct (lastExpiry env (Events d)); reflexivity.
Qed.

End RDAPExpiry.

Lemma queryServer_expiry_last_witness :
  Expiry (fst (fst (queryServer (Sample.registry (DialFail "refused"))
     "https://rdap.e.example/domain/example.org" "example.org" initWorld)))
  = Some 63922176000000000000.
Proof.
  exact (queryServer_expiry_last (Sample.registry (DialFail "refused"))
    "https://rdap.e.example/domain/example.org" "example.org" initWorld
    200 "renewed" Sample.renewed eq_refl eq_refl eq_refl).
Defined.

(* ===================================================================== *)
(** ** rdap.go: [extractVCardFN] *)
(* ===================================================================== *)

Section VCard.

Lemma vcardFN_sound props v :
  vcardFN props = v -> v <> "" ->
  exists prop, In (JArray prop) props /\
               prop !! 0%nat = Some (JString "fn") /\
               prop !! 3%nat = Some (JString v).
Proof.
  induction props as [|p props IH]; intros Hv Hne; [cbn in Hv; congruence|].
  assert (vcardFN props = v ->
          exists prop, In (JArray prop) (p :: props) /\
                       prop !! 0%nat = Some (JString "fn") /\
                       prop !! 3%nat = Some (JString v)) as Hrest.
  { intros H. destruct (IH H Hne) as (prop & Hin & H0 & H3).
    exists prop. split; [right; exact Hin | split; assumption]. }
  destruct p as [| | | |prop|]; cbn [vcardFN] in Hv; try (apply Hrest, Hv).
  destruct (length prop <? 4)%nat; [apply Hrest, Hv|].
  destruct (prop !! 0%nat) as [[| | |name| |]|] eqn:E0; try (apply Hrest, Hv).
  destruct (prop !! 3%nat) as [[| | |val| |]|] eqn:E3; try (apply Hrest, Hv).
  destruct (String.eqb name "fn") eqn:En; [|apply Hrest, Hv].
  apply String.eqb_eq in En. subst name val.
  exists prop. split; [left; reflexivity | split; [exact E0 | exact E3]].
Qed.

(** [X3] A name that [extractVCardFN] returns is never made up: when the
    result is not empty, the card is an array whose second element is a list
    of properties, and one of these is an array that starts with the string
    "fn" and has the result as its fourth element.  Every other shape of
    card gives the empty string. *)
Theorem extractVCardFN_sound vc v :
  extractVCardFN vc = v -> v <> "" ->
  exists tag props rest prop,
    vc = JArray (tag :: JArray props :: rest) /\
    In (JArray prop) props /\
    prop !! 0%nat = Some (JString "fn") /\
    prop !! 3%nat = Some (JString v).
Proof.
  intros Hv Hne.
  destruct vc as [| | | |arr|]; cbn [extractVCardFN] in Hv; try congruence.
  destruct arr as [|tag [|second rest]]; cbn in Hv; try congruence.
  destruct second as [| | | |props|]; try congruence.
  destruct (vcardFN_sound props v Hv Hne) as (prop & Hin & H0 & H3).
  exists tag, props, rest, prop. repeat split; assumption.
Qed.

End VCard.

Lemma extractVCardFN_sound_witness :
  exists tag props rest prop,
    Fixture.vcard "Example Registrar, Inc." = JArray (tag :: JArray props :: rest) /\
    In (JArray prop) props /\
    prop !! 0%nat = Some (JString "fn") /\
    prop !! 3%nat = Some (JString "Example Registrar, Inc.").
Proof.
  apply (extractVCardFN_sound (Fixture.vcard "Example Registrar, Inc.")
           "Example Registrar, Inc.").
  - reflexivity.
  - discriminate.
Defined.

(* ===================================================================== *)
(** ** whois.go: [whoisField] and the fields of a classified body *)
(* ===================================================================== *)

Section WhoisValues.

Variable env : Env.

(** [X4] [whoisField] looks for the first line of the body that, trimmed and
    lowercased, starts with the lowercased name and a colon, and that,
    trimmed, has a colon; it returns what follows the first colon of that
    line, trimmed, later colons included.  Lines before it are passed over,
    and without such a line the result is the empty string. *)
Theorem whoisField_first_line body field :
  whoisField env body field =
    match find (lineGivesField env (ToLower env field +:+ ":")) (Split body LF) with
    | Some line => TrimSpace (default "" (afterFirstColon (TrimSpace line)))
    | None => ""
    end.
Proof. apply (whoisFieldLines_find env). Qed.

Lemma expiryOfFields_nonzero fields body r t :
  Expiry r = None ->
  Expiry (expiryOfFields env fields body r) = Some t -> IsZero t = false.
Proof.
  intros Hr. induction fields as [|f fields IH]; cbn [expiryOfFields].
  - rewrite Hr. discriminate.
  - destruct (IsZero (parseWhoisDate env (whoisField env body f))) eqn:E; cbn [negb].
    + exact IH.
    + cbn [setExpiry Expiry]. intros [= <-]. exact E.
Qed.

(** [X5] Whatever the body, the result of [parseWHOIS] has one of the three
    statuses; it has a registrar or an expiry only when its status is
    Registered; and its expiry is never the zero time: a date that parses to
    the zero time counts as missing. *)
Theorem parseWHOIS_fields domain body :
  let r := parseWHOIS env domain body in
  (Status r = StatusRegistered \/ Status r = StatusAvailable \/
   Status r = StatusUnknown) /\
  (Status r <> StatusRegistered -> Registrar r = "" /\ Expiry r = None) /\
  (forall t, Expiry r = Some t -> IsZero t = false).
Proof.
  cbv zeta. unfold parseWHOIS.
  destruct (anyMarker notRegisteredMarkers (ToLower env body)).
  { cbn. split; [tauto|]. split; [tauto | discriminate]. }
  destruct (anyMarker registeredMarkers (ToLower env body)).
  - set (r0 := setRegistrar _ _).
    destruct (expiryOfFields_keeps env expiryFields body r0) as (_ & Hst & _).
    rewrite Hst. cbn [r0 setRegistrar newResult Status].
    split; [tauto|]. split; [congruence|].
    intros t. apply expiryOfFields_nonzero. reflexivity.
  - cbn. split; [tauto|]. split; [tauto | discriminate].
Qed.

End WhoisValues.

Lemma whoisField_first_line_witness :
  whoisField Fixture.offline Sample.datedBody "UPDATED date" = "2024-01-01T10:00:00Z" /\
  whoisField Fixture.offline Sample.datedBody "Registry Expiry Date" = "" /\
  whoisField Fixture.offline Sample.datedBody "Registrar" = "Foo" /\
  whoisField Fixture.offline Sample.datedBody "Name Server" = "".
Proof.
  split; [|split; [|split]].
  - exact (whoisField_first_line Fixture.offline Sample.datedBody "UPDATED date").
  - exact (whoisField_first_line Fixture.offline Sample.datedBody "Registry Expiry Date").
  - exact (whoisField_first_line Fixture.offline Sample.datedBody "Registrar").
  - exact (whoisField_first_line Fixture.offline Sample.datedBody "Name Server").
Defined.

(* ===================================================================== *)
(** ** checker.go: normalization *)
(* ===================================================================== *)

Section Normalize.

Variable env : Env.

(** [X6] [Check] looks at its argument only through its normal form: two
    arguments with the same normal form, as two that differ in letter case
    or in the white space around them have, give the same result and the
    same requests in the same state, and the domain of the result is that
    normal form. *)
Theorem Check_normalized d1 d2 w :
  normalize env d1 = normalize env d2 ->
  Check env d1 w = Check env d2 w /\
  Domain (fst (Check env d1 w)) = normalize env d2.
Proof.
  intros Hsame. rewrite Check_Domain. split; [|exact Hsame].
  rewrite !Check_eq, Hsame. reflexivity.
Qed.

End Normalize.

Lemma Check_normalized_witness :
  Check Fixture.online (Sample.padded "Example.COM") initWorld
    = Check Fixture.online "example.com" initWorld /\
  Domain (fst (Check Fixture.online (Sample.padded "Example.COM") initWorld))
    = "example.com".
Proof.
  exact (Check_normalized Fixture.online (Sample.padded "Example.COM") "example.com"
           initWorld eq_refl).
Defined.

(* ===================================================================== *)
(** ** checker.go: a domain without a dot *)
(* ===================================================================== *)

Section CheckerEdges.

Variable env : Env.

Lemma Split_no_dot s : Contains s "." = false -> Split s "." = [s].
Proof.
  induction s as [|c s IH]; [reflexivity|].
  cbn [Contains HasPrefix]. rewrite andb_true_r. intros H.
  apply orb_false_iff in H as [Hc Hs].
  cbn [Split]. rewrite Hc, (IH Hs). reflexivity.
Qed.

Lemma servers_eq domain w :
  servers env domain w =
    match loadBootstrap env w with
    | (Some e, w1) => (([], Some e), w1)
    | (None, w1) => (lookupServers (bootstrap (rdap w1)) domain, w1)
    end.
Proof.
  unfold servers, bind, getClient, ret.
  destruct (loadBootstrap env w) as [[e|] w1]; reflexivity.
Qed.

(** [X7] A domain whose normal form has no dot, the empty string and a
    string of white space among them, is never looked up: [Check] returns
    status Unknown with the invalid-domain text as its error, and the only
    network exchange it may have made is the fetch of the bootstrap
    document by [loadBootstrap]. *)
Theorem Check_single_label domain w :
  Contains (normalize env domain) "." = false ->
  Check env domain w =
    (mkResult (normalize env domain) StatusUnknown "" None ""
              ("无效域名: " +:+ normalize env domain),
     snd (loadBootstrap env w)).
Proof.
  intros Hdot. apply Split_no_dot in Hdot.
  rewrite Check_eq.
  assert (exists e, RDAPQuery env (normalize env domain) w
                    = ((zeroResult, Some e), snd (loadBootstrap env w))) as [e ->].
  { unfold RDAPQuery, bind. rewrite servers_eq.
    destruct (loadBootstrap env w) as [[e|] w1]; cbn [fst snd].
    - exists e. reflexivity.
    - unfold lookupServers. rewrite Hdot. cbn. eexists. reflexivity. }
  unfold WHOISQuery, server. rewrite Hdot. reflexivity.
Qed.

End CheckerEdges.

Lemma Check_single_label_witness :
  fst (Check Fixture.online "   " initWorld)
    = mkResult "" StatusUnknown "" None "" "无效域名: " /\
  fst (Check Fixture.online Fixture.NBSP initWorld)
    = mkResult "" StatusUnknown "" None "" "无效域名: " /\
  fst (Check Fixture.online (Sample.padded " LocalHost") initWorld)
    = mkResult "localhost" StatusUnknown "" None "" "无效域名: localhost" /\
  log (snd (Check Fixture.online (Sample.padded " LocalHost") initWorld))
    = [ReqGet bootstrapURL].
Proof.
  pose proof (Check_single_label Fixture.online "   " initWorld eq_refl) as H1.
  pose proof (Check_single_label Fixture.online Fixture.NBSP initWorld eq_refl) as H2.
  pose proof (Check_single_label Fixture.online (Sample.padded " LocalHost") initWorld
                eq_refl) as H3.
  rewrite H1, H2, H3. split; [|split; [|split]]; reflexivity.
Defined.

(* ===================================================================== *)
(** ** checker.go: the fallback to WHOIS *)
(* ===================================================================== *)

Section Fallback.

Variable env : Env.

(** [X8] When the RDAP query has failed and the WHOIS server of the domain
    replies, the body decides: with a marker of either kind the result is
    that of [parseWHOIS] with the source "whois"; with no marker the result
    is Unknown, without source, and its error is the cannot-parse text of the
    WHOIS client.  What made the RDAP query fail is not reported. *)
Theorem Check_whois_fallback domain w srv body :
  snd (fst (RDAPQuery env (normalize env domain) w)) <> None ->
  server (normalize env domain) = (srv, None) ->
  whois_answer env (clock (snd (RDAPQuery env (normalize env domain) w)))
    (srv +:+ ":43") (normalize env domain +:+ CRLF) = WhoisReply body ->
  fst (Check env domain w) =
    if anyMarker notRegisteredMarkers (ToLower env body)
       || anyMarker registeredMarkers (ToLower env body)
    then setSource (parseWHOIS env (normalize env domain) body) "whois"
    else mkResult (normalize env domain) StatusUnknown "" None ""
                  ("无法解析 WHOIS 响应: " +:+ normalize env domain).
Proof.
  intros Hrdap Hsrv Hreply. rewrite Check_eq.
  destruct (RDAPQuery env (normalize env domain) w) as [[r [e|]] w1];
    cbn [fst snd] in *; [|congruence].
  unfold WHOISQuery. rewrite Hsrv.
  unfold bind, whoisExchange, ret. rewrite Hreply.
  rewrite parseWHOIS_Status.
  destruct (anyMarker notRegisteredMarkers (ToLower env body)); [reflexivity|].
  destruct (anyMarker registeredMarkers (ToLower env body)); reflexivity.
Qed.

Lemma loadBootstrap_gets w :
  exists urls, log (snd (loadBootstrap env w)) = log w ++ map ReqGet urls.
Proof.
  destruct (loaded (rdap w)) eqn:Hl.
  - exists []. rewrite (loadBootstrap_loaded env w Hl), app_nil_r. reflexivity.
  - exists [bootstrapURL]. apply (loadBootstrap_log_unloaded env w Hl).
Qed.

Lemma queryServers_gets srvs domain w :
  exists urls, snd (queryServers env srvs domain w) = afterGets w urls.
Proof.
  revert w. induction srvs as [|srv srvs IH]; intros w.
  - exists []. rewrite afterGets_nil. reflexivity.
  - rewrite queryServers_cons.
    destruct (snd (endpointOutcome env domain w 0 srv)).
    + destruct (IH (afterGets w [serverURL srv domain])) as [urls ->].
      exists (serverURL srv domain :: urls). apply afterGets_cons.
    + exists [serverURL srv domain]. reflexivity.
Qed.

Lemma RDAPQuery_gets domain w :
  exists urls, log (snd (RDAPQuery env domain w)) = log w ++ map ReqGet urls.
Proof.
  destruct (loadBootstrap_gets w) as [urls0 Hload].
  rewrite <- (servers_world env domain w) in Hload.
  destruct (servers env domain w) as [[srvs [e|]] w1] eqn:E; cbn [snd] in Hload.
  - rewrite (RDAPQuery_unresolved env domain w srvs e w1 E). exists urls0. exact Hload.
  - rewrite (RDAPQuery_found env domain w srvs w1 E).
    destruct (queryServers_gets srvs domain w1) as [urls ->].
    exists (urls0 ++ urls). cbn [afterGets log].
    rewrite Hload, map_app, app_assoc. reflexivity.
Qed.

(** [X9] The requests of one [Check] are GETs, followed by at most one
    WHOIS exchange.  There is a WHOIS exchange only if the RDAP query has
    failed and the table has a server for the domain; it is made with port
    43 of that server and carries the normalized domain followed by CR LF. *)
Theorem Check_trace domain w :
  exists gets whois,
    log (snd (Check env domain w)) = log w ++ map ReqGet gets ++ whois /\
    (whois = [] \/
     (snd (fst (RDAPQuery env (normalize env domain) w)) <> None /\
      exists srv,
        server (normalize env domain) = (srv, None) /\
        whois = [ReqWhois (srv +:+ ":43") (normalize env domain +:+ CRLF)])).
Proof.
  destruct (RDAPQuery_gets (normalize env domain) w) as [gets Hgets].
  exists gets. rewrite Check_eq.
  destruct (RDAPQuery env (normalize env domain) w) as [[r [e|]] w1];
    cbn [fst snd] in *.
  - unfold WHOISQuery.
    destruct (server (normalize env domain)) as [srv [e0|]] eqn:Hsrv.
    + exists []. cbn [ret snd]. rewrite app_nil_r. split; [exact Hgets | left; reflexivity].
    + exists [ReqWhois (srv +:+ ":43") (normalize env domain +:+ CRLF)].
      split.
      * unfold bind, whoisExchange, ret.
        destruct (whois_answer env (clock w1) _ _) as [e1|e1|e1|body];
          try (cbn [snd log]; rewrite Hgets, <- app_assoc; reflexivity).
        destruct (String.eqb _ StatusUnknown);
          cbn [snd log]; rewrite Hgets, <- app_assoc; reflexivity.
      * right. split; [discriminate|]. exists srv. split; reflexivity.
  - exists []. rewrite app_nil_r. split; [exact Hgets | left; reflexivity].
Qed.

End Fallback.

Lemma Check_whois_fallback_witness :
  fst (Check (Sample.registry (WhoisReply Sample.unclassifiedBody)) "Example.IO" initWorld)
    = mkResult "example.io" StatusUnknown "" None "" "无法解析 WHOIS 响应: example.io" /\
  fst (Check (Sample.registry (WhoisReply Fixture.noMatchBody)) "Example.IO" initWorld)
    = mkResult "example.io" StatusAvailable "" None "whois" "" /\
  fst (Check (Sample.registry (WhoisReply Sample.dottedBody))
         (Sample.padded "Example.IO") initWorld)
    = mkResult "example.io" StatusRegistered "Foo" None "whois" "".
Proof.
  split; [|split].
  - refine (Check_whois_fallback (Sample.registry (WhoisReply Sample.unclassifiedBody))
      "Example.IO" initWorld "whois.nic.io" Sample.unclassifiedBody _ _ _).
    + vm_compute. discriminate.
    + vm_compute. reflexivity.
    + reflexivity.
  - refine (Check_whois_fallback (Sample.registry (WhoisReply Fixture.noMatchBody))
      "Example.IO" initWorld "whois.nic.io" Fixture.noMatchBody _ _ _).
    + vm_compute. discriminate.
    + vm_compute. reflexivity.
    + reflexivity.
  - refine (Check_whois_fallback (Sample.registry (WhoisReply Sample.dottedBody))
      (Sample.padded "Example.IO") initWorld "whois.nic.io" Sample.dottedBody _ _ _).
    + vm_compute. discriminate.
    + vm_compute. reflexivity.
    + reflexivity.
Defined.

Lemma Check_trace_witness :
  log (snd (Check Fixture.offline (Sample.padded "Example.com") initWorld))
    = [ReqGet bootstrapURL; ReqWhois "whois.verisign-grs.com:43" ("example.com" +:+ CRLF)] /\
  exists gets whois,
    log (snd (Check Fixture.offline (Sample.padded "Example.com") initWorld))
      = log initWorld ++ map ReqGet gets ++ whois /\
    (whois = [] \/
     (snd (fst (RDAPQuery Fixture.offline
                  (normalize Fixture.offline (Sample.padded "Example.com")) initWorld))
        <> None /\
      exists srv,
        server (normalize Fixture.offline (Sample.padded "Example.com")) = (srv, None) /\
        whois = [ReqWhois (srv +:+ ":43")
                   (normalize Fixture.offline (Sample.padded "Example.com") +:+ CRLF)])).
Proof.
  split; [vm_compute; reflexivity|].
  exact (Check_trace Fixture.offline (Sample.padded "Example.com") initWorld).
Defined.

(* ===================================================================== *)
(** ** main.go: a batch that cannot start, and the shared client *)
(* ===================================================================== *)

Section BatchEdges.

Variable env : Env.
Variable domains : list string.
Variable concurrency : Z.

(** [X10] With a concurrency limit of zero or less and at least one domain,
    [queryAll] never returns: a negative limit makes the creation of the
    channel panic, and with a limit of zero no goroutine ever gets past its
    send, so no state in which all have finished is reached. *)
Theorem queryAll_never_returns s :
  concurrency <= 0 -> domains <> [] ->
  reachable env domains concurrency s -> ~ allFinished s.
Proof.
  intros Hc Hne Hreach Hfin.
  destruct (batchInvariant_reachable env domains concurrency s Hreach)
    as (_ & _ & _ & Hcap & _).
  assert (concurrency = 0) as Hzero by lia.
  pose proof (queryAll_zero_never_starts env domains concurrency s Hzero Hreach) as Hph.
  unfold allFinished in Hfin. rewrite Hph in Hfin.
  destruct domains as [|d ds]; [congruence|].
  cbn in Hfin. inversion Hfin as [|p l Hp _]. discriminate Hp.
Qed.

Lemma reachable_unloaded s :
  reachable env domains concurrency s ->
  loaded (rdap (world s)) = false -> rdap (world s) = NewRDAPClient.
Proof.
  induction 1 as [s Hinit | s s' Hreach IH Hstep].
  - unfold queryAllInit in Hinit. destruct (concurrency <? 0); [discriminate|].
    injection Hinit as <-. reflexivity.
  - destruct Hstep as [i s Hi Hroom | i s domain Hi Hd | i s Hi Hpos];
      cbn [world]; try exact IH.
    destruct (Check_after_load env domain (world s)) as (-> & _).
    destruct (loaded (rdap (world s))) eqn:Hl.
    + rewrite (loadBootstrap_loaded env _ Hl). cbn [snd]. congruence.
    + rewrite (loadBootstrap_unloaded env _ Hl).
      destruct (http_answer env (clock (world s)) bootstrapURL) as [e|code [e|body]];
        cbn [snd afterGets rdap]; try (intros _; apply IH; reflexivity).
      destruct (json_services env body);
        cbn [snd afterGets rdap loaded]; [intros _; apply IH; reflexivity | discriminate].
Qed.

(** [X11] In a batch the client is as [NewRDAPClient] made it until a fetch
    of the bootstrap document succeeds; from then on no step of any
    goroutine changes the client or asks for the document again. *)
Theorem batch_bootstrap_once s :
  reachable env domains concurrency s ->
  (loaded (rdap (world s)) = false -> rdap (world s) = NewRDAPClient) /\
  (forall s', step env domains concurrency s s' ->
     loaded (rdap (world s)) = true ->
     rdap (world s') = rdap (world s) /\
     exists new, log (world s') = log (world s) ++ new /\
                 ~ In (ReqGet bootstrapURL) new).
Proof.
  intros Hreach. split; [apply (reachable_unloaded s Hreach)|].
  intros s' Hstep Hl.
  destruct Hstep as [i s Hi Hroom | i s domain Hi Hd | i s Hi Hpos]; cbn [world].
  - split; [reflexivity|]. exists []. rewrite app_nil_r. split; [reflexivity | intros []].
  - pose proof (Check_after_load env domain (world s)) as H.
    rewrite (loadBootstrap_loaded env _ Hl) in H. exact H.
  - split; [reflexivity|]. exists []. rewrite app_nil_r. split; [reflexivity | intros []].
Qed.

End BatchEdges.

Lemma queryAll_never_returns_witness :
  ~ allFinished (mkBatch [Waiting; Waiting] [zeroResult; zeroResult] 0 initWorld).
Proof.
  apply (queryAll_never_returns Fixture.online ["example.com"; "example.net"] 0).
  - lia.
  - discriminate.
  - apply reach_init. reflexivity.
Defined.

Lemma batch_bootstrap_once_witness :
  let s := mkBatch [Written] [fst (Check Fixture.online "example.com" initWorld)] 1
                   (snd (Check Fixture.online "example.com" initWorld)) in
  loaded (rdap (world s)) = true /\
  forall s', step Fixture.online ["example.com"] 1 s s' ->
    loaded (rdap (world s)) = true ->
    rdap (world s') = rdap (world s) /\
    exists new, log (world s') = log (world s) ++ new /\
                ~ In (ReqGet bootstrapURL) new.
Proof.
  cbv zeta. split; [vm_compute; reflexivity|].
  apply (batch_bootstrap_once Fixture.online ["example.com"] 1).
  apply (reach_step Fixture.online ["example.com"] 1
           (mkBatch [Running] [zeroResult] 1 initWorld)).
  - apply (reach_step Fixture.online ["example.com"] 1
             (mkBatch [Waiting] [zeroResult] 0 initWorld)).
    + apply reach_init. reflexivity.
    + apply (step_acquire Fixture.online ["example.com"] 1 0
               (mkBatch [Waiting] [zeroResult] 0 initWorld)); [reflexivity | simpl; lia].
  - apply (step_check Fixture.online ["example.com"] 1 0
             (mkBatch [Running] [zeroResult] 1 initWorld) "example.com");
      reflexivity.
Defined.

(* ===================================================================== *)
(** ** main.go: a batch over a network that answers the same at all times *)
(* ===================================================================== *)

Section Timeless.

Variable env : Env.
Hypothesis Htimeless : timeless env.

Lemma loadOutcome_client w w' :
  rdap w' = rdap w -> loadOutcome env w' = loadOutcome env w.
Proof.
  intros Hc. unfold loadOutcome.
  destruct (loaded (rdap w)) eqn:Hl.
  - rewrite (loadBootstrap_loaded env w Hl).
    rewrite (loadBootstrap_loaded env w') by (rewrite Hc; exact Hl).
    cbn [fst snd]. rewrite Hc. reflexivity.
  - rewrite (loadBootstrap_unloaded env w Hl).
    rewrite (loadBootstrap_unloaded env w') by (rewrite Hc; exact Hl).
    rewrite (proj1 Htimeless (clock w') (clock w) bootstrapURL), Hc.
    destruct (http_answer env (clock w) bootstrapURL) as [e|code [e|body]];
      cbn [fst snd afterGets rdap]; rewrite ?Hc; try reflexivity.
    destruct (json_services env body); cbn [fst snd afterGets rdap]; rewrite ?Hc;
      reflexivity.
Qed.

(** Loading again after a load gives the same. *)
Lemma loadOutcome_again w w' :
  rdap w' = rdap (snd (loadBootstrap env w)) -> loadOutcome env w' = loadOutcome env w.
Proof.
  intros Hc.
  rewrite (loadOutcome_client (snd (loadBootstrap env w)) w' Hc).
  unfold loadOutcome.
  destruct (loaded (rdap w)) eqn:Hl.
  - rewrite (loadBootstrap_loaded env w Hl). cbn [snd].
    rewrite (loadBootstrap_loaded env w Hl). reflexivity.
  - rewrite (loadBootstrap_unloaded env w Hl).
    destruct (http_answer env (clock w) bootstrapURL) as [e|code [e|body]] eqn:Ha;
      cbn [fst snd].
    1-2: rewrite (loadBootstrap_unloaded env (afterGets w [bootstrapURL]) Hl);
         rewrite (proj1 Htimeless _ (clock w) bootstrapURL), Ha; reflexivity.
    destruct (json_services env body) eqn:Hj; cbn [fst snd].
    + rewrite (loadBootstrap_unloaded env (afterGets w [bootstrapURL]) Hl).
      rewrite (proj1 Htimeless _ (clock w) bootstrapURL), Ha, Hj. reflexivity.
    + rewrite loadBootstrap_loaded by reflexivity. reflexivity.
Qed.

Lemma queryServers_timeless srvs domain w w' :
  fst (queryServers env srvs domain w) = fst (queryServers env srvs domain w').
Proof.
  revert w w'. induction srvs as [|srv srvs IH]; intros w w'; [reflexivity|].
  rewrite !queryServers_cons.
  assert (endpointOutcome env domain w 0 srv = endpointOutcome env domain w' 0 srv) as ->.
  { unfold endpointOutcome. f_equal. apply (proj1 Htimeless). }
  destruct (snd (endpointOutcome env domain w' 0 srv)); [apply IH | reflexivity].
Qed.

Lemma WHOISQuery_timeless domain w w' :
  fst (WHOISQuery env domain w) = fst (WHOISQuery env domain w').
Proof.
  unfold WHOISQuery. destruct (server domain) as [srv [e|]]; [reflexivity|].
  unfold bind, whoisExchange, ret.
  rewrite (proj2 Htimeless (clock w) (clock w')).
  destruct (whois_answer env (clock w') _ _) as [e|e|e|body]; try reflexivity.
  destruct (String.eqb _ StatusUnknown); reflexivity.
Qed.

Lemma RDAPQuery_timeless domain w w' :
  loadOutcome env w = loadOutcome env w' ->
  fst (RDAPQuery env domain w) = fst (RDAPQuery env domain w').
Proof.
  unfold loadOutcome. intros [= Hf Hc].
  unfold RDAPQuery, bind. rewrite !servers_eq.
  destruct (loadBootstrap env w) as [o w1], (loadBootstrap env w') as [o' w1'].
  cbn [fst snd] in *. subst o'. destruct o as [e|]; cbn [fst snd]; [reflexivity|].
  rewrite Hc. destruct (lookupServers (bootstrap (rdap w1')) domain) as [srvs [e|]];
    cbn [fst snd]; [reflexivity|].
  apply queryServers_timeless.
Qed.

Lemma Check_timeless domain w w' :
  loadOutcome env w = loadOutcome env w' ->
  fst (Check env domain w) = fst (Check env domain w').
Proof.
  intros Hload. rewrite !Check_eq.
  pose proof (RDAPQuery_timeless (normalize env domain) w w' Hload) as HQ.
  destruct (RDAPQuery env (normalize env domain) w) as [[r o] w1],
           (RDAPQuery env (normalize env domain) w') as [[r' o'] w1'].
  cbn [fst] in HQ. injection HQ as -> ->.
  destruct o' as [e|]; [|reflexivity].
  pose proof (WHOISQuery_timeless (normalize env domain) w1 w1') as HW.
  destruct (WHOISQuery env (normalize env domain) w1) as [[r2 o2] w2],
           (WHOISQuery env (normalize env domain) w1') as [[r2' o2'] w2'].
  cbn [fst] in HW. injection HW as -> ->.
  destruct o2'; reflexivity.
Qed.

Variable domains : list string.
Variable concurrency : Z.

Lemma reachable_timeless s :
  reachable env domains concurrency s ->
  loadOutcome env (world s) = loadOutcome env initWorld /\
  forall i domain,
    domains !! i = Some domain ->
    phases s !! i = Some Written \/ phases s !! i = Some Finished ->
    results s !! i = Some (fst (Check env domain initWorld)).
Proof.
  induction 1 as [s Hinit | s s' Hreach [IHw IHr] Hstep].
  - unfold queryAllInit in Hinit. destruct (concurrency <? 0); [discriminate|].
    injection Hinit as <-. cbn [world phases results]. split; [reflexivity|].
    intros i domain _ [H|H]; apply lookup_replicate in H as [H _]; discriminate.
  - destruct (batchInvariant_reachable env domains concurrency s Hreach)
      as (Hp & Hr & _).
    destruct Hstep as [i s Hi Hroom | i s domain Hi Hd | i s Hi Hpos];
      cbn [world phases results].
    + split; [exact IHw|]. intros j d Hj Hph.
      destruct (decide (i = j)) as [->|Hne].
      * rewrite list_lookup_insert_eq in Hph by (eapply lookup_lt_Some; eauto).
        destruct Hph; discriminate.
      * rewrite list_lookup_insert_ne in Hph by exact Hne. apply (IHr j d Hj Hph).
    + split.
      * rewrite <- IHw. apply loadOutcome_again.
        apply (proj1 (Check_after_load env domain (world s))).
      * intros j d Hj Hph. destruct (decide (i = j)) as [->|Hne].
        -- rewrite list_lookup_insert_eq
             by (rewrite Hr, <- Hp; eapply lookup_lt_Some; eauto).
           assert (d = domain) as -> by congruence.
           f_equal. apply Check_timeless, IHw.
        -- rewrite list_lookup_insert_ne in Hph by exact Hne.
           rewrite list_lookup_insert_ne by exact Hne. apply (IHr j d Hj Hph).
    + split; [exact IHw|]. intros j d Hj Hph.
      destruct (decide (i = j)) as [->|Hne].
      * apply (IHr j d Hj). left. exact Hi.
      * rewrite list_lookup_insert_ne in Hph by exact Hne. apply (IHr j d Hj Hph).
Qed.

(** [X12] When the answers of the network do not depend on the moment of
    the request, the results that [queryAll] returns are those of checking
    each domain on its own in a fresh process, in the order of the input,
    whatever the concurrency limit and the order in which the goroutines
    ran. *)
Theorem queryAll_timeless s :
  reachable env domains concurrency s -> allFinished s ->
  results s = map (fun domain => fst (Check env domain initWorld)) domains.
Proof.
  intros Hreach Hfin.
  destruct (batchInvariant_reachable env domains concurrency s Hreach)
    as (Hp & Hr & _).
  destruct (reachable_timeless s Hreach) as [_ Hres].
  apply list_eq. intros i.
  destruct (domains !! i) as [d|] eqn:Hd.
  - rewrite (Hres i d Hd).
    + symmetry. change (map ?f ?l) with (f <$> l).
      rewrite list_lookup_fmap, Hd. reflexivity.
    + right. destruct (lookup_lt_is_Some_2 (phases s) i) as [p Hpi].
      { rewrite Hp. eapply lookup_lt_Some; eauto. }
      rewrite Hpi. f_equal.
      unfold allFinished in Hfin. rewrite Forall_forall in Hfin.
      apply Hfin, list_elem_of_lookup. eauto.
  - change (map ?f ?l) with (f <$> l). rewrite list_lookup_fmap, Hd.
    apply lookup_ge_None. rewrite Hr. apply lookup_ge_None. exact Hd.
Qed.

End Timeless.

Lemma online_timeless : timeless Fixture.online.
Proof. split; reflexivity. Qed.

Lemma queryAll_timeless_witness :
  exists s,
    reachable Fixture.online ["Example.com "; "example.net"] 2 s /\ allFinished s /\
    results s =
      [ mkResult "example.com" StatusAvailable "" None "rdap" "";
        mkResult "example.net" StatusRegistered "Second Registrar"
                 (Some 63922176000000000000) "rdap" "" ].
Proof.
  destruct (run_to_end Fixture.online ["Example.com "; "example.net"] 2 6
              (mkBatch [Waiting; Waiting] [zeroResult; zeroResult] 0 initWorld))
    as (s & Hreach & Hfin).
  - lia.
  - apply reach_init. reflexivity.
  - vm_compute. lia.
  - exists s. split; [exact Hreach|]. split; [exact Hfin|].
    rewrite (queryAll_timeless Fixture.online online_timeless
               ["Example.com "; "example.net"] 2 s Hreach Hfin).
    vm_compute. reflexivity.
Defined.

(* ===================================================================== *)
(** ** checker.go: no server for the TLD, and the optional fields *)
(* ===================================================================== *)

Section CheckerFields.

Variable env : Env.

(** [X13] When the RDAP query has failed and the table of WHOIS servers has
    no entry for the last label of a domain of two labels or more, [Check]
    returns status Unknown with the no-server text naming that label, and
    makes no WHOIS exchange. *)
Theorem Check_unknown_tld domain w :
  snd (fst (RDAPQuery env (normalize env domain) w)) <> None ->
  (2 <= length (Split (normalize env domain) "."))%nat ->
  whoisServers !! List.last (Split (normalize env domain) ".") "" = None ->
  Check env domain w =
    (mkResult (normalize env domain) StatusUnknown "" None ""
       ("未找到 TLD 的 WHOIS 服务器: " +:+ List.last (Split (normalize env domain) ".") ""),
     snd (RDAPQuery env (normalize env domain) w)).
Proof.
  intros Hrdap Hlen Hnone. rewrite Check_eq.
  destruct (RDAPQuery env (normalize env domain) w) as [[r [e|]] w1];
    cbn [fst snd] in *; [|congruence].
  unfold WHOISQuery, server.
  destruct (length (Split (normalize env domain) ".") <? 2)%nat eqn:E;
    [apply Nat.ltb_lt in E; lia|].
  rewrite Hnone, (whoisServers_compound_absent _ Hlen).
  destruct (3 <=? length (Split (normalize env domain) "."))%nat; reflexivity.
Qed.

Lemma readServer_optional domain resp r :
  readServer env domain resp = (r, None) ->
  Status r <> StatusRegistered -> Registrar r = "" /\ Expiry r = None.
Proof.
  destruct resp as [e|code body]; cbn [readServer]; [discriminate|].
  destruct (code =? 404).
  { intros [= <-] _. split; reflexivity. }
  destruct (negb (code =? 200)); [discriminate|].
  destruct body as [e|data]; [discriminate|].
  destruct (json_domain env data) as [e|d]; [discriminate|].
  intros [= <-] Hst. exfalso. apply Hst.
  apply (resultOfDomain_fields env domain d).
Qed.

Lemma queryServers_optional srvs domain w r w' :
  queryServers env srvs domain w = ((r, None), w') ->
  Status r <> StatusRegistered -> Registrar r = "" /\ Expiry r = None.
Proof.
  revert w. induction srvs as [|srv srvs IH]; intros w; [discriminate|].
  rewrite queryServers_cons.
  destruct (endpointOutcome env domain w 0 srv) as [r0 [e|]] eqn:E; cbn [fst snd].
  - apply IH.
  - intros [= <- _]. apply (readServer_optional domain _ r0 E).
Qed.

Lemma parseWHOIS_optional domain body :
  Status (parseWHOIS env domain body) <> StatusRegistered ->
  Registrar (parseWHOIS env domain body) = "" /\
  Expiry (parseWHOIS env domain body) = None.
Proof.
  rewrite parseWHOIS_Status. unfold parseWHOIS.
  destruct (anyMarker notRegisteredMarkers (ToLower env body)); [split; reflexivity|].
  destruct (anyMarker registeredMarkers (ToLower env body)); [congruence | split; reflexivity].
Qed.

(** [X14] A result of [Check] carries a registrar or an expiry only when its
    status is Registered: an Available or Unknown result has neither,
    whichever client produced it. *)
Theorem Check_optional_fields domain w :
  Status (fst (Check env domain w)) <> StatusRegistered ->
  Registrar (fst (Check env domain w)) = "" /\
  Expiry (fst (Check env domain w)) = None.
Proof.
  rewrite Check_eq.
  destruct (RDAPQuery env (normalize env domain) w) as [[r [e|]] w1] eqn:E1.
  - unfold WHOISQuery.
    destruct (server (normalize env domain)) as [srv [e0|]];
      [intros _; split; reflexivity|].
    unfold bind, whoisExchange, ret.
    destruct (whois_answer env (clock w1) _ _) as [e1|e1|e1|body];
      try (intros _; split; reflexivity).
    destruct (String.eqb _ StatusUnknown); [intros _; split; reflexivity|].
    cbn [fst setSource Status Registrar Expiry]. apply parseWHOIS_optional.
  - cbn [fst setSource Status Registrar Expiry].
    destruct (servers env (normalize env domain) w) as [[srvs [e|]] w0] eqn:E0.
    + rewrite (RDAPQuery_unresolved env _ w srvs e w0 E0) in E1. discriminate.
    + rewrite (RDAPQuery_found env _ w srvs w0 E0) in E1.
      apply (queryServers_optional srvs _ w0 r w1 E1).
Qed.

End CheckerFields.

Lemma Check_unknown_tld_witness :
  fst (Check (Sample.registry (DialFail "refused")) (Sample.padded "WWW.Example.ZZ") initWorld)
    = mkResult "www.example.zz" StatusUnknown "" None ""
               "未找到 TLD 的 WHOIS 服务器: zz" /\
  log (snd (Check (Sample.registry (DialFail "refused")) (Sample.padded "WWW.Example.ZZ") initWorld))
    = [ReqGet bootstrapURL].
Proof.
  rewrite (Check_unknown_tld (Sample.registry (DialFail "refused"))
             (Sample.padded "WWW.Example.ZZ") initWorld).
  - split; reflexivity.
  - vm_compute. discriminate.
  - vm_compute. lia.
  - vm_compute. reflexivity.
Defined.

Lemma Check_optional_fields_witness :
  Registrar (fst (Check Fixture.online "example.com" initWorld)) = "" /\
  Expiry (fst (Check Fixture.online "example.com" initWorld)) = None.
Proof.
  apply (Check_optional_fields Fixture.online "example.com" initWorld).
  vm_compute. discriminate.
Defined.

Lemma addServices_lookup_witness :
  let m := addServices Fixture.offline ∅
             [ [ ["org"]; ["https://rdap.e.example/"] ];
               [ ["ORG"; "Info"] ];
               [ ["info"; "Org"; "ÉCOLE"]; ["https://rdap.f.example/"]; ["unused"] ] ] in
  m !! "org" = Some ["https://rdap.f.example/"] /\
  m !! "info" = Some ["https://rdap.f.example/"] /\
  m !! "école" = Some ["https://rdap.f.example/"] /\
  m !! "Org" = None /\
  m !! "ÉCOLE" = None.
Proof.
  cbv zeta. split; [|split; [|split; [|split]]].
  - exact (proj1 (addServices_lookup Fixture.offline ∅ _ "org")).
  - exact (proj1 (addServices_lookup Fixture.offline ∅ _ "info")).
  - exact (proj1 (addServices_lookup Fixture.offline ∅ _ "école")).
  - rewrite (proj1 (proj2 (addServices_lookup Fixture.offline ∅ _ "Org")));
      [reflexivity | exact caseExcerpt_fixed | vm_compute; discriminate].
  - rewrite (proj1 (proj2 (addServices_lookup Fixture.offline ∅ _ "ÉCOLE")));
      [reflexivity | exact caseExcerpt_fixed | vm_compute; discriminate].
Defined.

(* ===================================================================== *)
(** ** rdap.go: the labels that [servers] looks up *)
(* ===================================================================== *)

Section ServerLabels.

(** [X15] For a domain whose labels end with [a] and [b], the endpoints are
    those of the key "a.b" when the domain has a third label and the map has
    that key, else those of the key [b]; when the map has neither, the error
    names [b].  The labels before the last two are never looked at. *)
Theorem lookupServers_last_labels (m : gmap string (list string)) domain pre a b :
  Split domain "." = pre ++ [a; b] ->
  lookupServers m domain =
    match (match pre with [] => None | _ :: _ => m !! (a +:+ "." +:+ b) end) with
    | Some srvs => (srvs, None)
    | None =>
        match m !! b with
        | Some srvs => (srvs, None)
        | None => ([], Some ("未找到 TLD 的 RDAP 服务器: " +:+ b))
        end
    end.
Proof.
  intros Hsplit. unfold lookupServers. rewrite Hsplit.
  rewrite length_app. cbn [length].
  replace (length pre + 2 - 2)%nat with (length pre) by lia.
  rewrite drop_app_length.
  replace (pre ++ [a; b]) with ((pre ++ [a]) ++ [b]) by (rewrite <- app_assoc; reflexivity).
  rewrite last_last.
  destruct (length pre + 2 <? 2)%nat eqn:E; [apply Nat.ltb_lt in E; lia|].
  destruct pre as [|p pre]; [reflexivity|].
  replace (3 <=? length (p :: pre) + 2)%nat with true
    by (symmetry; apply Nat.leb_le; cbn [length]; lia).
  reflexivity.
Qed.

End ServerLabels.

Lemma lookupServers_last_labels_witness :
  let m : gmap string (list string) :=
    <["co.uk" := ["https://rdap.couk.example/"]]>
      (<["uk" := ["https://rdap.uk.example/"]]> ∅) in
  lookupServers m "www.example.co.uk" = (["https://rdap.couk.example/"], None) /\
  lookupServers m "co.uk" = (["https://rdap.uk.example/"], None) /\
  lookupServers m "example.org.uk" = (["https://rdap.uk.example/"], None).
Proof.
  cbv zeta. split; [|split].
  - exact (lookupServers_last_labels _ "www.example.co.uk" ["www"; "example"] "co" "uk"
             eq_refl).
  - exact (lookupServers_last_labels _ "co.uk" [] "co" "uk" eq_refl).
  - exact (lookupServers_last_labels _ "example.org.uk" ["example"] "org" "uk" eq_refl).
Defined.

Lemma parseWHOIS_fields_witness :
  Registrar (parseWHOIS Fixture.offline "example.io" Sample.unclassifiedBody) = "" /\
  Expiry (parseWHOIS Fixture.offline "example.io" Sample.unclassifiedBody) = None.
Proof.
  apply (proj1 (proj2 (parseWHOIS_fields Fixture.offline "example.io"
                         Sample.unclassifiedBody))).
  vm_compute. discriminate.
Defined.
